(** * unzip-http-go: reading a remote ZIP archive through HTTP range requests

    A shallow embedding of [example.go] (the [RemoteZipFile] library) and of
    the command-line driver ([main], [extractFiles], [matchPattern]), with the
    properties of the design document checked against them.

    Go values are modelled as follows: [int] and [int64] as [Z] (with the
    64-bit wrap-around written out where the source computes), [[]byte] as
    [list byte], [string] as [string] (a sequence of 8-bit characters), a
    Go [(value, error)] result as [Result], and every effect (HTTP
    exchanges, the idle connection pool, the standard streams, the disk) as
    a transition on an explicit [World]. *)

From Stdlib Require Import ZArith List String Ascii Bool Lia.
From Stdlib Require Import DecimalString.
From Stdlib.Strings Require Import Byte.
From Stdlib Require Import NArith.
From Stdlib Require DecimalPos DecimalNat.
Import ListNotations.

Open Scope Z_scope.

(** ** Errors, results and the effect monad *)

(** The error values the program can produce.  [ErrLib] stands for an error
    made by a library (net/http, io, archive/zip, os); the other constructors
    are the [fmt.Errorf] calls of the source, [ErrWrap] being the ones that
    wrap a cause with [%w]. *)
Inductive Error : Type :=
| ErrLib (msg : string)
| ErrUnexpectedStatus (code : Z)
| ErrNoRangeSupport
| ErrNoFileSize
| ErrNoEOCD
| ErrEOCDTooShort
| ErrFileNotFound (name : string)
| ErrNoFilesMatched (pattern : string)
| ErrWrap (context : string) (cause : Error).

Inductive Result (A : Type) : Type :=
| Ok (a : A)
| Err (e : Error).
Arguments Ok {A} a.
Arguments Err {A} e.

Definition isOk {A} (r : Result A) : bool :=
  match r with Ok _ => true | Err _ => false end.

Record Request := mkRequest {
  Method : string;
  ReqURL : string;
  ReqHeader : list (string * string)
}.

Record Response := mkResponse {
  StatusCode : Z;
  Header : list (string * string);
  ContentLength : Z;           (* -1 when the server sent none *)
  Body : list byte;
  BodyErr : option Error       (* the error met while reading the body, if any *)
}.

(** What the program can observe and change outside its own memory. *)
Record World := mkWorld {
  sent : list Request;                 (* HTTP requests attempted, oldest first *)
  idle : nat;                          (* idle connections kept by the transport *)
  stdout : list byte;
  stderr : list byte;
  disk : list (string * list byte)     (* files written, latest first *)
}.

Definition M (A : Type) : Type := World -> Result A * World.

Definition ret {A} (a : A) : M A := fun w => (Ok a, w).
Definition fail {A} (e : Error) : M A := fun w => (Err e, w).
Definition bind {A B} (c : M A) (k : A -> M B) : M B :=
  fun w => match c w with
           | (Ok a, w') => k a w'
           | (Err e, w') => (Err e, w')
           end.

Notation "x <- c ;; k" := (bind c (fun x => k))
  (at level 61, c at next level, right associativity).
Notation "c ;;; k" := (bind c (fun _ => k))
  (at level 61, right associativity).

(** [fmt.Errorf("...: %w", err)] around a failing computation. *)
Definition wrapErr {A} (context : string) (c : M A) : M A :=
  fun w => match c w with
           | (Err e, w') => (Err (ErrWrap context e), w')
           | r => r
           end.

(** ** Go library functions used by the source *)

Definition len {A} (l : list A) : Z := Z.of_nat (List.length l).

(** [int64] arithmetic wraps around. *)
Definition wrap64 (z : Z) : Z := (z + 2 ^ 63) mod 2 ^ 64 - 2 ^ 63.

(** The verb [%d]. *)
Definition fmtD (z : Z) : string := NilZero.string_of_int (Z.to_int z).

(** [b[i:j]] for [0 <= i <= j <= len b]. *)
Definition slice {A} (b : list A) (i j : nat) : list A :=
  firstn (j - i) (skipn i b).

(** [copy(dst, src)]: the first [min(len dst, len src)] bytes are overwritten. *)
Definition copy {A} (dst src : list A) : list A :=
  firstn (List.length dst) src ++ skipn (List.length src) dst.

Definition bytes_Equal (a b : list byte) : bool :=
  if list_eq_dec byte_eq_dec a b then true else false.

Fixpoint strings_Contains_byte (s : string) (c : ascii) : bool :=
  match s with
  | EmptyString => false
  | String a t => Ascii.eqb a c || strings_Contains_byte t c
  end.

(** The number of occurrences of a byte in a string. *)
Fixpoint countByte (s : string) (c : ascii) : nat :=
  match s with
  | EmptyString => O
  | String a t => if Ascii.eqb a c then S (countByte t c) else countByte t c
  end.

(** [strings.Split(s, sep)] for a separator of one byte. *)
Fixpoint strings_Split (s : string) (c : ascii) : list string :=
  match s with
  | EmptyString => [EmptyString]
  | String a t =>
      if Ascii.eqb a c then EmptyString :: strings_Split t c
      else match strings_Split t c with
           | hd :: tl => String a hd :: tl
           | [] => [String a EmptyString]
           end
  end.

(** [len(s) >= len(prefix) && s[:len(prefix)] == prefix] *)
Definition strings_HasPrefix (s prefix : string) : bool :=
  (String.length prefix <=? String.length s)%nat
  && String.eqb (substring 0 (String.length prefix) s) prefix.

(** [len(s) >= len(suffix) && s[len(s)-len(suffix):] == suffix] *)
Definition strings_HasSuffix (s suffix : string) : bool :=
  (String.length suffix <=? String.length s)%nat
  && String.eqb (substring (String.length s - String.length suffix)
                           (String.length suffix) s) suffix.

(** [strings.ReplaceAll] for one-byte old and new strings. *)
Fixpoint replaceByte (s : string) (old new : ascii) : string :=
  match s with
  | EmptyString => EmptyString
  | String a t => String (if Ascii.eqb a old then new else a) (replaceByte t old new)
  end.

(** [http.Header.Get]: the first value stored under the key, or the empty
    string. *)
Fixpoint headerGet (h : list (string * string)) (key : string) : string :=
  match h with
  | [] => EmptyString
  | (k, v) :: t => if String.eqb k key then v else headerGet t key
  end.

(** [http.Header.Set]: the values stored under the key are replaced. *)
Definition headerSet (h : list (string * string)) (key value : string)
  : list (string * string) :=
  filter (fun kv => negb (String.eqb (fst kv) key)) h ++ [(key, value)].

(** ** The archive as the zip package presents it *)

Record ZipFile := mkZipFile {
  Name : string;
  IsDir : bool;                 (* FileInfo().IsDir() *)
  UncompressedSize64 : Z;
  CompressedSize64 : Z;
  ModifiedText : string         (* Modified.Format("2006-01-02 15:04:05") *)
}.

Record ZipReader := mkZipReader { File : list ZipFile }.

(** [RemoteZipFile]; the HTTP client has a fixed configuration, its pool of
    connections lives in the [World]. *)
Record RemoteZipFile := mkRemoteZipFile {
  URL : string;
  size : Z;
  files : list ZipFile;
  reader : option ZipReader
}.

(** The result of [ReadAt(p, off)]: the buffer after the call, [n] and [err]. *)
Definition ReadAtResult : Type := list byte * Z * option Error.
Definition ReaderAt : Type := list byte -> Z -> World -> ReadAtResult * World.

Definition readBuf (r : ReadAtResult) : list byte := fst (fst r).
Definition readN (r : ReadAtResult) : Z := snd (fst r).
Definition readErr (r : ReadAtResult) : option Error := snd r.

(** What the program runs on: the host, the network with the remote server,
    and the packages whose code is not part of the repository. *)
Class Platform := {
  PathSeparator : ascii;                                (* os.PathSeparator *)
  urlError : string -> option Error;                    (* URL parsing in http.NewRequest *)
  roundTrip : World -> Request -> Result Response;      (* one HTTP exchange *)
  pooled : World -> Request -> nat;                     (* idle connections it leaves *)
  zip_NewReader : ReaderAt -> Z -> M ZipReader;         (* zip.NewReader *)
  ReadCloser : Type;
  zipFile_Open : ZipFile -> M ReadCloser;               (* zip.File.Open *)
  io_ReadAll : ReadCloser -> M (list byte);
  filepath_Base : string -> string;
  filepath_Dir : string -> string;
  os_MkdirAll : string -> M unit;
  os_WriteFile : string -> list byte -> M unit
}.

(** The text of an error, as [%v] prints it. *)
Fixpoint errorString (e : Error) : string :=
  match e with
  | ErrLib msg => msg
  | ErrUnexpectedStatus code => "unexpected status code: " ++ fmtD code
  | ErrNoRangeSupport => "server does not support range requests"
  | ErrNoFileSize => "could not determine file size"
  | ErrNoEOCD => "could not find End of Central Directory record"
  | ErrEOCDTooShort => "EOCD record too short"
  | ErrFileNotFound name => "file not found: " ++ name
  | ErrNoFilesMatched pattern => "no files matched pattern: " ++ pattern
  | ErrWrap context cause => context ++ ": " ++ errorString cause
  end%string.

Definition nl : string := String (ascii_of_nat 10) EmptyString.

Definition write_stdout (data : list byte) : M unit :=
  fun w => (Ok tt, mkWorld (sent w) (idle w) (stdout w ++ data) (stderr w) (disk w)).

Definition write_stderr (data : list byte) : M unit :=
  fun w => (Ok tt, mkWorld (sent w) (idle w) (stdout w) (stderr w ++ data) (disk w)).

Definition print_stdout (s : string) : M unit := write_stdout (list_byte_of_string s).
Definition print_stderr (s : string) : M unit := write_stderr (list_byte_of_string s).

(** ** example.go: the RemoteZipFile library *)

Section RemoteZip.
Context {P : Platform}.

(** [http.NewRequest(method, url, nil)] *)
Definition http_NewRequest (method url : string) : M Request :=
  match urlError url with
  | Some e => fail e
  | None => ret (mkRequest method url [])
  end.

(** [httpClient.Do(req)]: the exchange is recorded, the transport keeps at
    most [MaxIdleConns = 10] idle connections afterwards. *)
Definition http_Do (req : Request) : M Response :=
  fun w => (roundTrip w req,
            mkWorld (sent w ++ [req]) (Nat.min 10 (pooled w req))
                    (stdout w) (stderr w) (disk w)).

Definition http_Head (url : string) : M Response :=
  req <- http_NewRequest "HEAD" url ;;
  http_Do req.

(** The request [Head] builds. *)
Definition headRequest (url : string) : Request := mkRequest "HEAD" url [].

(** [io.ReadAll(resp.Body)] *)
Definition readBody (resp : Response) : M (list byte) :=
  match BodyErr resp with
  | Some e => fail e
  | None => ret (Body resp)
  end.

(** The value of the Range header: [fmt.Sprintf("bytes=%d-%d", start, end-1)]. *)
Definition rangeValue (start end_ : Z) : string :=
  ("bytes=" ++ fmtD start ++ "-" ++ fmtD (wrap64 (end_ - 1)))%string.

(** The request [getRange] builds. *)
Definition rangeRequest (url : string) (start end_ : Z) : Request :=
  mkRequest "GET" url (headerSet [] "Range" (rangeValue start end_)).

Definition getRange (rzf : RemoteZipFile) (start end_ : Z) : M (list byte) :=
  req <- http_NewRequest "GET" (URL rzf) ;;
  let req := mkRequest (Method req) (ReqURL req)
                       (headerSet (ReqHeader req) "Range" (rangeValue start end_)) in
  resp <- http_Do req ;;
  if negb (StatusCode resp =? 206) && negb (StatusCode resp =? 200)
  then fail (ErrUnexpectedStatus (StatusCode resp))
  else readBody resp.

(** [remoteReaderAt.ReadAt] *)
Definition ReadAt (rzf : RemoteZipFile) : ReaderAt :=
  fun p off w =>
    match getRange rzf off (wrap64 (off + len p)) w with
    | (Err e, w') => ((p, 0, Some e), w')
    | (Ok data, w') => ((copy p data, len data, None), w')
    end.

Definition eocdSignature : list byte := [x50; x4b; x05; x06].

(** The loop [for i := ...; i >= 0; i-- { if bytes.Equal(endData[i:i+4],
    eocdSignature) { eocdPos = i; break } }], entered at index [i]; the
    result is [eocdPos], -1 when the loop ends without a match. *)
Fixpoint scanEOCD (endData : list byte) (i : nat) : Z :=
  if bytes_Equal (slice endData i (i + 4)) eocdSignature then Z.of_nat i
  else match i with
       | O => -1
       | S j => scanEOCD endData j
       end.

Definition findEOCD (endData : list byte) : Z :=
  let start := len endData - 22 in
  if start <? 0 then -1 else scanEOCD endData (Z.to_nat start).

Definition readCentralDirectory (rzf : RemoteZipFile) : M RemoteZipFile :=
  let searchSize := if 65536 >? size rzf then size rzf else 65536 in
  endData <- getRange rzf (wrap64 (size rzf - searchSize)) (size rzf) ;;
  let eocdPos := findEOCD endData in
  if eocdPos <? 0 then fail ErrNoEOCD else
  let eocd := skipn (Z.to_nat eocdPos) endData in
  if len eocd <? 22 then fail ErrEOCDTooShort else
  zipReader <- zip_NewReader (ReadAt rzf) (size rzf) ;;
  ret (mkRemoteZipFile (URL rzf) (size rzf) (File zipReader) (Some zipReader)).

Definition NewRemoteZipFile (url : string) : M RemoteZipFile :=
  resp <- wrapErr "failed to get file info" (http_Head url) ;;
  if negb (StatusCode resp =? 200)
  then fail (ErrUnexpectedStatus (StatusCode resp)) else
  if negb (String.eqb (headerGet (Header resp) "Accept-Ranges") "bytes")
  then fail ErrNoRangeSupport else
  let rzf := mkRemoteZipFile url (ContentLength resp) [] None in
  if size rzf <=? 0 then fail ErrNoFileSize else
  wrapErr "failed to read central directory" (readCentralDirectory rzf).

(** [Close]: [transport.CloseIdleConnections()]. *)
Definition Close (rzf : RemoteZipFile) : M unit :=
  fun w => (Ok tt, mkWorld (sent w) 0 (stdout w) (stderr w) (disk w)).

Definition List_ (rzf : RemoteZipFile) : list string := map Name (files rzf).

Definition Files (rzf : RemoteZipFile) : list ZipFile := files rzf.

(** The loop of [Open] over [rzf.files]. *)
Fixpoint openFirst (fs : list ZipFile) (name : string) : M ReadCloser :=
  match fs with
  | [] => fail (ErrFileNotFound name)
  | f :: t => if String.eqb (Name f) name then zipFile_Open f else openFirst t name
  end.

Definition Open (rzf : RemoteZipFile) (name : string) : M ReadCloser :=
  openFirst (files rzf) name.

Definition Extract (rzf : RemoteZipFile) (name : string) : M (list byte) :=
  rc <- Open rzf name ;;
  io_ReadAll rc.

End RemoteZip.

(** ** The command-line driver: main, listZipContents, extractFiles,
    matchPattern *)

Section Cli.
Context {P : Platform}.

(** [filepath.ToSlash]: the host separator becomes a slash. *)
Definition filepath_ToSlash (path : string) : string :=
  if Ascii.eqb PathSeparator "/" then path
  else replaceByte path PathSeparator "/".

(** [filepath.FromSlash]: a slash becomes the host separator. *)
Definition filepath_FromSlash (path : string) : string :=
  if Ascii.eqb PathSeparator "/" then path
  else replaceByte path "/" PathSeparator.

Definition matchPattern (pattern name : string) : bool :=
  let pattern := filepath_ToSlash pattern in
  let name := filepath_ToSlash name in
  if String.eqb pattern name then true
  else if strings_Contains_byte pattern "*" then
    match strings_Split pattern "*" with
    | [prefix; suffix] => strings_HasPrefix name prefix && strings_HasSuffix name suffix
    | _ => false
    end
  else false.

(** The body of the loop of [extractFiles] over [rzf.Files()]; the result is
    the flag [matched] when the loop ends. *)
Fixpoint extractLoop (rzf : RemoteZipFile) (pattern : string)
    (recreateStructure writeStdout : bool) (fs : list ZipFile) (matched : bool)
  : M bool :=
  match fs with
  | [] => ret matched
  | f :: rest =>
    let normalizedName := filepath_FromSlash (Name f) in
    if matchPattern pattern (Name f) || matchPattern pattern normalizedName then
      if IsDir f then
        extractLoop rzf pattern recreateStructure writeStdout rest true
      else if writeStdout then
        data <- wrapErr ("failed to extract " ++ Name f) (Extract rzf (Name f)) ;;
        write_stdout data ;;;
        extractLoop rzf pattern recreateStructure writeStdout rest true
      else
        let outputPath :=
          if negb recreateStructure then filepath_Base normalizedName
          else normalizedName in
        let dir := filepath_Dir outputPath in
        (if negb (String.eqb dir ".") && negb (String.eqb dir "")
         then wrapErr ("failed to create directory " ++ dir) (os_MkdirAll dir)
         else ret tt) ;;;
        print_stderr ("Extracting " ++ Name f ++ "..." ++ nl) ;;;
        data <- wrapErr ("failed to extract " ++ Name f) (Extract rzf (Name f)) ;;
        wrapErr ("failed to write " ++ outputPath) (os_WriteFile outputPath data) ;;;
        extractLoop rzf pattern recreateStructure writeStdout rest true
    else
      extractLoop rzf pattern recreateStructure writeStdout rest matched
  end%string.

Definition extractFiles (rzf : RemoteZipFile) (pattern : string)
    (recreateStructure writeStdout : bool) : M unit :=
  matched <- extractLoop rzf pattern recreateStructure writeStdout (Files rzf) false ;;
  if negb matched then fail (ErrNoFilesMatched pattern) else ret tt.

(** [%-10s]: left-justified in a field of the given width. *)
Definition padRight (s : string) (width : nat) : string :=
  (s ++ string_of_list_ascii (repeat " "%char (width - String.length s)))%string.

Fixpoint listLoop (fs : list ZipFile) : M unit :=
  match fs with
  | [] => ret tt
  | f :: rest =>
    print_stdout (padRight (fmtD (UncompressedSize64 f)) 10 ++ "  "
                  ++ ModifiedText f ++ "  " ++ Name f ++ nl) ;;;
    listLoop rest
  end%string.

Definition listZipContents (rzf : RemoteZipFile) : M unit :=
  print_stdout (padRight "Length" 10 ++ "  " ++ padRight "DateTime" 19
                ++ "  " ++ "Name" ++ nl) ;;;
  print_stdout (string_of_list_ascii (repeat "-"%char 60) ++ nl) ;;;
  listLoop (Files rzf).

(** The loop of [main] over the patterns given on the command line: an
    error of [extractFiles] is reported and the loop goes on. *)
Fixpoint extractAll (rzf : RemoteZipFile) (filenames : list string)
    (recreateStructure writeStdout : bool) : M unit :=
  match filenames with
  | [] => ret tt
  | pattern :: rest =>
    (fun w =>
       match extractFiles rzf pattern recreateStructure writeStdout w with
       | (Err e, w') =>
           print_stderr ("Error extracting " ++ pattern ++ ": "
                         ++ errorString e ++ nl) w'
       | (Ok _, w') => (Ok tt, w')
       end) ;;;
    extractAll rzf rest recreateStructure writeStdout
  end%string.

Definition usage : string :=
  ("Usage: unzip-http [-l] [-f] [-o] <url> [filenames...]" ++ nl
   ++ nl ++ "Extract individual files from .zip files over http without downloading the entire archive."
   ++ nl ++ nl
   ++ "Options:" ++ nl
   ++ "  -l    List files in remote .zip file (default if no filenames given)" ++ nl
   ++ "  -f    Recreate folder structure from .zip file when extracting" ++ nl
   ++ "  -o    Write files to stdout" ++ nl)%string.

(** [main], given the parsed flags and the remaining arguments; the result
    is the exit status of the process. *)
Definition main (listFiles recreateStructure writeStdout : bool)
    (args : list string) (w : World) : Z * World :=
  match args with
  | [] => (1, snd (print_stderr usage w))
  | url :: filenames =>
    match NewRemoteZipFile url w with
    | (Err e, w1) => (1, snd (print_stderr ("Error: " ++ errorString e ++ nl) w1))
    | (Ok rzf, w1) =>
      let w2 :=
        if listFiles || Z.eqb (len filenames) 0
        then snd (listZipContents rzf w1)
        else snd (extractAll rzf filenames recreateStructure writeStdout w1) in
      (0, snd (Close rzf w2))
    end
  end%string.

End Cli.

(** ** The candidate rule of the design document *)

(** The signature test of the scan, at index [i] of the window. *)
Definition sigAt (window : list byte) (i : nat) : bool :=
  bytes_Equal (slice window i (i + 4)) eocdSignature.

(** The comment length recorded in the 22-byte record that would start at
    [i]: its last two bytes, little endian. *)
Definition recordedCommentLen (window : list byte) (i : nat) : Z :=
  Z.of_N (Byte.to_N (nth (i + 20) window x00))
  + 256 * Z.of_N (Byte.to_N (nth (i + 21) window x00)).

(** The comment length a candidate at [i] implies: window length - candidate
    position - fixed record size. *)
Definition impliedCommentLen (window : list byte) (i : nat) : Z :=
  len window - Z.of_nat i - 22.

(** A candidate overruns the window when the comment it records does not fit
    in the bytes that remain after its record. *)
Definition overruns (window : list byte) (i : nat) : bool :=
  impliedCommentLen window i <? recordedCommentLen window i.

(** A candidate is consistent when the recorded and the implied comment
    lengths agree. *)
Definition consistentAt (window : list byte) (i : nat) : bool :=
  sigAt window i && (recordedCommentLen window i =? impliedCommentLen window i).

Fixpoint rightmostConsistentFrom (window : list byte) (i : nat) : Z :=
  if consistentAt window i then Z.of_nat i
  else match i with
       | O => -1
       | S j => rightmostConsistentFrom window j
       end.

(** The rule as the design document words it: the rightmost consistent
    candidate, -1 when there is none. *)
Definition spec_rightmostConsistent (window : list byte) : Z :=
  rightmostConsistentFrom window (List.length window).

(** Where the window [readCentralDirectory] asks for starts: it is the
    last [min(size, 65536)] bytes. *)
Definition tailStart (rzf : RemoteZipFile) : Z :=
  wrap64 (size rzf - (if 65536 >? size rzf then size rzf else 65536)).

(** ** Servers and hosts to run the program on *)

Fixpoint splitAtDash (s : string) : option (string * string) :=
  match s with
  | EmptyString => None
  | String a t =>
      if Ascii.eqb a "-" then Some (EmptyString, t)
      else match splitAtDash t with
           | Some (l, r) => Some (String a l, r)
           | None => None
           end
  end.

Definition parseDecimal (s : string) : option nat :=
  option_map Nat.of_uint (NilZero.uint_of_string s).

(** A Range value [bytes=<first>-<last>] read back as the half-open
    interval of indices it asks for. *)
Definition parseRange (v : string) : option (nat * nat) :=
  if String.prefix "bytes=" v then
    match splitAtDash (substring 6 (String.length v - 6) v) with
    | Some (a, b) =>
        match parseDecimal a, parseDecimal b with
        | Some first, Some last => Some (first, S last)
        | _, _ => None
        end
    | None => None
    end
  else None.

(** A server that holds [content] and honours byte ranges; a range that
    ends after the resource is cut at its end. *)
Definition honestServer (content : list byte) (w : World) (req : Request)
  : Result Response :=
  let hdr := [("Accept-Ranges", "bytes")]%string in
  if String.eqb (Method req) "HEAD" then
    Ok (mkResponse 200 hdr (len content) [] None)
  else
    match parseRange (headerGet (ReqHeader req) "Range") with
    | Some (i, j) =>
        let j := Nat.min j (List.length content) in
        if (i <? j)%nat
        then Ok (mkResponse 206 hdr (Z.of_nat (j - i)) (slice content i j) None)
        else Ok (mkResponse 416 hdr 0 [] None)
    | None => Ok (mkResponse 200 hdr (len content) content None)
    end.

(** A server that ignores the Range header and always sends the whole
    resource with status 200. *)
Definition wholeBodyServer (content : list byte) (w : World) (req : Request)
  : Result Response :=
  if String.eqb (Method req) "HEAD" then
    Ok (mkResponse 200 [] (len content) [] None)
  else Ok (mkResponse 200 [] (len content) content None).

(** A server whose connection is reset on the first exchange and that is
    honest from the second on. *)
Definition flakyServer (content : list byte) (w : World) (req : Request)
  : Result Response :=
  match sent w with
  | [] => Err (ErrLib "connection reset by peer")
  | _ => honestServer content w req
  end.

(** A server that answers every request with a status and nothing else. *)
Definition statusServer (code : Z) (w : World) (req : Request)
  : Result Response :=
  Ok (mkResponse code [] (-1) [] None).

Fixpoint lookupContent (table : list (ZipFile * list byte)) (name : string)
  : option (list byte) :=
  match table with
  | [] => None
  | (f, data) :: t => if String.eqb (Name f) name then Some data else lookupContent t name
  end.

(** A host for running the program: the path separator and the server are
    given, the zip package finds the entries of [table] (in this order) and
    opening an entry yields the bytes stored next to it; paths are left as
    they are and written files are recorded on the disk. *)
Definition hostWith (sep : ascii)
    (server : World -> Request -> Result Response)
    (table : list (ZipFile * list byte)) : Platform :=
  {| PathSeparator := sep;
     urlError := fun _ => None;
     roundTrip := server;
     pooled := fun _ _ => 1%nat;
     zip_NewReader := fun _ _ => ret (mkZipReader (map fst table));
     ReadCloser := list byte;
     zipFile_Open := fun f =>
       match lookupContent table (Name f) with
       | Some data => ret data
       | None => fail (ErrLib "zip: not a valid zip file")
       end;
     io_ReadAll := fun rc => ret rc;
     filepath_Base := fun path => path;
     filepath_Dir := fun _ => "."%string;
     os_MkdirAll := fun _ => ret tt;
     os_WriteFile := fun path data w =>
       (Ok tt, mkWorld (sent w) (idle w) (stdout w) (stderr w) ((path, data) :: disk w)) |}.

Definition emptyWorld : World := mkWorld [] 0 [] [] [].

Definition fileNamed (name : string) : ZipFile := mkZipFile name false 0 0 EmptyString.

Definition bytesOf (s : string) : list byte := list_byte_of_string s.

(** A resource of six bytes and a handle on it. *)
Definition sixBytes : list byte := [x01; x02; x03; x04; x05; x06].

Definition sixHandle : RemoteZipFile :=
  mkRemoteZipFile "http://host/six.zip" 6 [] None.

Definition honestHost : Platform := hostWith "/" (honestServer sixBytes) [].
Definition wholeBodyHost : Platform := hostWith "/" (wholeBodyServer sixBytes) [].
Definition flakyHost : Platform := hostWith "/" (flakyServer sixBytes) [].

(** An archive of three entries, in central-directory order, and a handle
    on it as [NewRemoteZipFile] would build it. *)
Definition threeEntries : list (ZipFile * list byte) :=
  [(fileNamed "a.txt", bytesOf "AAA");
   (fileNamed "dir/b.txt", bytesOf "BB");
   (fileNamed "c.bin", bytesOf "C")]%string.

Definition threeHost : Platform := hostWith "/" (honestServer sixBytes) threeEntries.

Definition threeHandle : RemoteZipFile :=
  mkRemoteZipFile "http://host/three.zip" 6 (map fst threeEntries)
                  (Some (mkZipReader (map fst threeEntries))).

(** A host whose server answers 404 to everything. *)
Definition notFoundHost : Platform := hostWith "/" (statusServer 404) [].

(** A host whose server sends the whole resource and no Accept-Ranges. *)
Definition noRangesHost : Platform := hostWith "/" (wholeBodyServer sixBytes) [].

(** A tail window of 48 bytes: an end-of-central-directory record at 0
    that records a comment of 26 bytes, and that comment, which starts with
    the signature and holds ff ff where a record starting at 22 would
    record its own comment length. *)
Definition craftedWindow : list byte :=
  eocdSignature ++ repeat x00 16 ++ [x1a; x00]
  ++ eocdSignature ++ repeat x00 16 ++ [xff; xff] ++ repeat x00 4.

(** An archive without entries whose comment has the greatest length the
    format allows, 65535 bytes: 22 + 65535 bytes in all. *)
Definition maxCommentArchive : list byte :=
  eocdSignature ++ repeat x00 16 ++ [xff; xff] ++ repeat x00 (Z.to_nat 65535).

Definition maxCommentHost : Platform :=
  hostWith "/" (honestServer maxCommentArchive) [].

Definition craftedHost : Platform :=
  hostWith "/" (honestServer craftedWindow) threeEntries.

Definition craftedHandle : RemoteZipFile :=
  mkRemoteZipFile "http://host/crafted.zip" 48 [] None.

(** A host whose path separator is the backslash. *)
Definition windowsHost : Platform := hostWith "\" (honestServer sixBytes) threeEntries.

(** An archive with one entry, whose name holds two asterisks. *)
Definition starEntries : list (ZipFile * list byte) :=
  [(fileNamed "a*b*c", bytesOf "X")]%string.

Definition starHost : Platform := hostWith "/" (honestServer sixBytes) starEntries.

Definition starHandle : RemoteZipFile :=
  mkRemoteZipFile "http://host/star.zip" 6 (map fst starEntries)
                  (Some (mkZipReader (map fst starEntries))).

(** What one pattern selects for writing: the entries it matches that are
    not directories. *)
Definition selected {P : Platform} (pattern : string) (f : ZipFile) : bool :=
  matchPattern pattern (Name f) && negb (IsDir f).

(** The bytes a host made by [hostWith] yields for an entry. *)
Definition contentIn (table : list (ZipFile * list byte)) (f : ZipFile) : list byte :=
  match lookupContent table (Name f) with
  | Some data => data
  | None => []
  end.

(** Pattern after pattern in the order of the arguments, and for each
    pattern the selected entries in the order of the archive. *)
Definition patternOrderOutput {P : Platform} (table : list (ZipFile * list byte))
    (patterns : list string) : list byte :=
  flat_map (fun pattern =>
              flat_map (contentIn table) (filter (selected pattern) (map fst table)))
           patterns.

(** The selected entries in the order of the archive, each once. *)
Definition archiveOrderOutput {P : Platform} (table : list (ZipFile * list byte))
    (patterns : list string) : list byte :=
  flat_map (contentIn table)
           (filter (fun f => existsb (fun pattern => selected pattern f) patterns)
                   (map fst table)).

(** An archive with a directory entry and a file in it. *)
Definition dirEntries : list (ZipFile * list byte) :=
  [(mkZipFile "docs/" true 0 0 EmptyString, []);
   (fileNamed "docs/readme.txt", bytesOf "R")]%string.

Definition dirHost : Platform := hostWith "/" (honestServer sixBytes) dirEntries.

Definition dirHandle : RemoteZipFile :=
  mkRemoteZipFile "http://host/dir.zip" 6 (map fst dirEntries)
                  (Some (mkZipReader (map fst dirEntries))).

(** A handle with an entry that the zip package of [honestHost] cannot
    open. *)
Definition lostHandle : RemoteZipFile :=
  mkRemoteZipFile "http://host/six.zip" 6 [fileNamed "a.txt"]
                  (Some (mkZipReader [fileNamed "a.txt"])).

(** example.go, [min]. *)
Definition min (a b : Z) : Z := if a <? b then a else b.

(** The line [listZipContents] prints for an entry. *)
Definition listingLine (f : ZipFile) : string :=
  (padRight (fmtD (UncompressedSize64 f)) 10 ++ "  " ++ ModifiedText f ++ "  "
   ++ Name f ++ nl)%string.

(** The two lines [listZipContents] prints first. *)
Definition listingHead : string :=
  (padRight "Length" 10 ++ "  " ++ padRight "DateTime" 19 ++ "  " ++ "Name" ++ nl
   ++ string_of_list_ascii (repeat "-"%char 60) ++ nl)%string.

(** The 22 bytes of a record without entries that records a comment of
    65535 bytes. *)
Definition longRecord : list byte := eocdSignature ++ repeat x00 16 ++ [xff; xff].

(** A host like those of [hostWith] for the zip package and the disk, on
    which the functions of path/filepath are given and every directory can
    be made. *)
Definition fileHost (sep : ascii) (table : list (ZipFile * list byte))
    (base dir : string -> string) : Platform :=
  {| PathSeparator := sep;
     urlError := fun _ => None;
     roundTrip := honestServer [];
     pooled := fun _ _ => 1%nat;
     zip_NewReader := fun _ _ => ret (mkZipReader (map fst table));
     ReadCloser := list byte;
     zipFile_Open := fun f =>
       match lookupContent table (Name f) with
       | Some data => ret data
       | None => fail (ErrLib "zip: not a valid zip file")
       end;
     io_ReadAll := fun rc => ret rc;
     filepath_Base := base;
     filepath_Dir := dir;
     os_MkdirAll := fun _ => ret tt;
     os_WriteFile := fun path data w =>
       (Ok tt, mkWorld (sent w) (idle w) (stdout w) (stderr w) ((path, data) :: disk w)) |}.

(** The path [extractFiles] writes an entry to. *)
Definition outputPathOf {P : Platform} (recreateStructure : bool) (f : ZipFile) : string :=
  if negb recreateStructure then filepath_Base (filepath_FromSlash (Name f))
  else filepath_FromSlash (Name f).

(** The last component of a path written with slashes. *)
Fixpoint lastComponent (path : string) : string :=
  match path with
  | EmptyString => EmptyString
  | String a t =>
      if strings_Contains_byte t "/" then lastComponent t
      else if Ascii.eqb a "/" then t else path
  end.

(** * Properties *)

(** ** Range fetches *)

Section FetchProperties.
Context {P : Platform}.

Lemma slice_length {A} (b : list A) (i j : nat) :
  (j <= List.length b)%nat -> List.length (slice b i j) = (j - i)%nat.
Proof.
  intros Hj. unfold slice.
  rewrite length_firstn, length_skipn. lia.
Qed.

Lemma http_Do_sent (req : Request) (w : World) :
  sent (snd (http_Do req w)) = sent w ++ [req].
Proof. reflexivity. Qed.

(** [getRange] when the URL parses: one exchange, then the status test. *)
Lemma getRange_unfold (rzf : RemoteZipFile) (s e : Z) (w : World) :
  urlError (URL rzf) = None ->
  getRange rzf s e w =
  let req := rangeRequest (URL rzf) s e in
  let w' := snd (http_Do req w) in
  match roundTrip w req with
  | Err err => (Err err, w')
  | Ok resp =>
      if negb (StatusCode resp =? 206) && negb (StatusCode resp =? 200)
      then (Err (ErrUnexpectedStatus (StatusCode resp)), w')
      else match BodyErr resp with
           | Some err => (Err err, w')
           | None => (Ok (Body resp), w')
           end
  end.
Proof.
  intros Hurl. unfold getRange, http_NewRequest, bind, rangeRequest.
  rewrite Hurl. cbn.
  destruct (roundTrip w _) as [resp | err]; [| reflexivity].
  destruct (negb (StatusCode resp =? 206) && negb (StatusCode resp =? 200));
    [reflexivity |].
  unfold readBody. destruct (BodyErr resp); reflexivity.
Qed.

(** [getRange] when the URL does not parse: no exchange at all. *)
Lemma getRange_bad_url (rzf : RemoteZipFile) (s e : Z) (w : World) (err : Error) :
  urlError (URL rzf) = Some err -> getRange rzf s e w = (Err err, w).
Proof.
  intros Hurl. unfold getRange, http_NewRequest, bind. rewrite Hurl. reflexivity.
Qed.

Lemma getRange_sent_cases (rzf : RemoteZipFile) (s e : Z) (w : World) :
  sent (snd (getRange rzf s e w)) = sent w
  \/ sent (snd (getRange rzf s e w)) = sent w ++ [rangeRequest (URL rzf) s e].
Proof.
  destruct (urlError (URL rzf)) as [err |] eqn:Hurl.
  - left. rewrite (getRange_bad_url _ _ _ _ err Hurl). reflexivity.
  - right. rewrite (getRange_unfold _ _ _ _ Hurl). cbn zeta.
    destruct (roundTrip w _) as [resp | err]; [| reflexivity].
    destruct (negb _ && negb _); [reflexivity |].
    destruct (BodyErr resp); reflexivity.
Qed.

(** C2 (as amended): when the server answers the range request of
    [getRange] with status 206 or 200 and its body can be read, [getRange]
    returns that body as it is, without comparing its length with the
    range; when the body is the bytes [s..e-1] of the resource for a valid
    range, the result therefore has exactly [e - s] bytes, those of the
    resource. *)
Theorem getRange_returns_response_body
    (rzf : RemoteZipFile) (s e : Z) (w : World) (resp : Response) :
  urlError (URL rzf) = None ->
  roundTrip w (rangeRequest (URL rzf) s e) = Ok resp ->
  StatusCode resp = 206 \/ StatusCode resp = 200 ->
  BodyErr resp = None ->
  fst (getRange rzf s e w) = Ok (Body resp)
  /\ (forall content : list byte,
        0 <= s < e /\ e <= len content ->
        Body resp = slice content (Z.to_nat s) (Z.to_nat e) ->
        len (Body resp) = e - s).
Proof.
  intros Hurl Hrt Hstatus Hbody. split.
  - rewrite (getRange_unfold _ _ _ _ Hurl). cbn zeta. rewrite Hrt.
    replace (negb (StatusCode resp =? 206) && negb (StatusCode resp =? 200))
      with false.
    + rewrite Hbody. reflexivity.
    + destruct Hstatus as [H | H]; rewrite H; reflexivity.
  - intros content [Hse He] ->. unfold len in *.
    rewrite slice_length by lia. lia.
Qed.

(** C7 (as amended): [getRange] makes one attempt.  It sends at most one
    request; when the exchange fails, or the status is neither 206 nor 200,
    or the body cannot be read, that failure is what the caller gets, with
    exactly one request sent: nothing is tried again. *)
Theorem getRange_single_attempt (rzf : RemoteZipFile) (s e : Z) (w : World) :
  (List.length (sent (snd (getRange rzf s e w))) <= List.length (sent w) + 1)%nat
  /\ (urlError (URL rzf) = None ->
      let req := rangeRequest (URL rzf) s e in
      sent (snd (getRange rzf s e w)) = sent w ++ [req]
      /\ (forall err, roundTrip w req = Err err ->
                      fst (getRange rzf s e w) = Err err)
      /\ (forall resp, roundTrip w req = Ok resp ->
                       StatusCode resp <> 206 -> StatusCode resp <> 200 ->
                       fst (getRange rzf s e w)
                       = Err (ErrUnexpectedStatus (StatusCode resp)))
      /\ (forall resp err, roundTrip w req = Ok resp ->
                           StatusCode resp = 206 \/ StatusCode resp = 200 ->
                           BodyErr resp = Some err ->
                           fst (getRange rzf s e w) = Err err)).
Proof.
  split.
  - destruct (getRange_sent_cases rzf s e w) as [H | H]; rewrite H;
      [| rewrite length_app; cbn]; lia.
  - intros Hurl req. subst req.
    rewrite (getRange_unfold _ _ _ _ Hurl). cbn zeta.
    repeat split.
    + destruct (roundTrip w _) as [resp | err]; [| reflexivity].
      destruct (negb _ && negb _); [reflexivity |].
      destruct (BodyErr resp); reflexivity.
    + intros err ->. reflexivity.
    + intros resp -> H206 H200.
      apply Z.eqb_neq in H206, H200. rewrite H206, H200. reflexivity.
    + intros resp err -> Hstatus Hbody.
      replace (negb (StatusCode resp =? 206) && negb (StatusCode resp =? 200))
        with false by (destruct Hstatus as [H | H]; rewrite H; reflexivity).
      rewrite Hbody. reflexivity.
Qed.

(** C10: [ReadAt] returns an error exactly when [getRange] fails, and a
    successful [getRange] that yields fewer bytes than the buffer holds is
    reported as a read of that many bytes with a nil error. *)
Theorem ReadAt_error_iff_getRange_fails
    (rzf : RemoteZipFile) (p : list byte) (off : Z) (w : World) :
  let fetched := getRange rzf off (wrap64 (off + len p)) w in
  (readErr (fst (ReadAt rzf p off w)) <> None <-> isOk (fst fetched) = false)
  /\ (forall e, fst fetched = Err e ->
                fst (ReadAt rzf p off w) = (p, 0, Some e))
  /\ (forall data, fst fetched = Ok data -> len data < len p ->
                   readErr (fst (ReadAt rzf p off w)) = None
                   /\ readN (fst (ReadAt rzf p off w)) = len data
                   /\ readN (fst (ReadAt rzf p off w)) < len p
                   /\ readBuf (fst (ReadAt rzf p off w)) = copy p data)
  /\ snd (ReadAt rzf p off w) = snd fetched.
Proof.
  cbn zeta. unfold ReadAt.
  destruct (getRange rzf off (wrap64 (off + len p)) w) as [[data | e] w'];
    cbn; repeat split; intros; try congruence; try discriminate.
Qed.

End FetchProperties.

Lemma getRange_returns_response_body_witness :
  fst (@getRange honestHost sixHandle 1 3 emptyWorld) = Ok [x02; x03]
  /\ len [x02; x03] = 3 - 1.
Proof.
  destruct (@getRange_returns_response_body honestHost sixHandle 1 3 emptyWorld
              (mkResponse 206 [("Accept-Ranges", "bytes")]%string 2 [x02; x03] None)
              eq_refl eq_refl (or_introl eq_refl) eq_refl) as [Hres Hlen].
  split.
  - exact Hres.
  - apply (Hlen sixBytes).
    + unfold len; cbn; lia.
    + reflexivity.
Defined.

(** The server ignores the Range header and answers 200 with the whole
    resource: the fetch of the valid range [1, 3), which does not span the
    resource, succeeds with six bytes instead of two. *)
Lemma getRange_accepts_whole_body_for_subrange :
  0 <= 1 < 3 /\ 3 <= len sixBytes
  /\ fst (@getRange wholeBodyHost sixHandle 1 3 emptyWorld) = Ok sixBytes
  /\ len sixBytes <> 3 - 1.
Proof.
  repeat split; try (unfold len; cbn; lia).
Qed.

Lemma getRange_single_attempt_witness :
  sent (snd (@getRange flakyHost sixHandle 0 2 emptyWorld))
  = [rangeRequest "http://host/six.zip" 0 2]
  /\ fst (@getRange flakyHost sixHandle 0 2 emptyWorld)
     = Err (ErrLib "connection reset by peer").
Proof.
  destruct (@getRange_single_attempt flakyHost sixHandle 0 2 emptyWorld)
    as [_ Hone].
  destruct (Hone eq_refl) as [Hsent [Hfail _]].
  split.
  - exact Hsent.
  - apply Hfail. reflexivity.
Defined.

(** The connection is reset on the first exchange only: the fetch fails
    after one request, although the same fetch made again succeeds. *)
Lemma getRange_does_not_retry :
  let first := @getRange flakyHost sixHandle 0 2 emptyWorld in
  fst first = Err (ErrLib "connection reset by peer")
  /\ List.length (sent (snd first)) = 1%nat
  /\ fst (@getRange flakyHost sixHandle 0 2 (snd first)) = Ok [x01; x02].
Proof.
  cbn zeta. repeat split.
Qed.

Lemma ReadAt_error_iff_getRange_fails_witness :
  (readErr (fst (@ReadAt honestHost sixHandle [x00; x00; x00] 4 emptyWorld)) = None
   /\ readN (fst (@ReadAt honestHost sixHandle [x00; x00; x00] 4 emptyWorld)) = 2
   /\ readBuf (fst (@ReadAt honestHost sixHandle [x00; x00; x00] 4 emptyWorld))
      = [x05; x06; x00])
  /\ fst (@ReadAt honestHost sixHandle [x00; x00; x00] 7 emptyWorld)
     = ([x00; x00; x00], 0, Some (ErrUnexpectedStatus 416)).
Proof.
  destruct (@ReadAt_error_iff_getRange_fails honestHost sixHandle
              [x00; x00; x00] 4 emptyWorld) as [_ [_ [Hshort _]]].
  destruct (@ReadAt_error_iff_getRange_fails honestHost sixHandle
              [x00; x00; x00] 7 emptyWorld) as [_ [Hfail _]].
  split.
  - assert (Hlt : len [x05; x06] < len [x00; x00; x00]) by (unfold len; cbn; lia).
    destruct (Hshort [x05; x06] eq_refl Hlt) as [He [Hn [_ Hb]]].
    split; [exact He | split; [exact Hn | exact Hb]].
  - apply (Hfail (ErrUnexpectedStatus 416)). reflexivity.
Defined.

(** ** Opening and closing a handle *)

Section HandleProperties.
Context {P : Platform}.

Lemma http_Head_unfold (url : string) (w : World) :
  urlError url = None ->
  http_Head url w = (roundTrip w (headRequest url), snd (http_Do (headRequest url) w)).
Proof.
  intros Hurl. unfold http_Head, http_NewRequest, bind. rewrite Hurl. reflexivity.
Qed.

Lemma openFirst_find (fs : list ZipFile) (name : string) (w : World) :
  openFirst fs name w =
  match find (fun f => String.eqb (Name f) name) fs with
  | Some f => zipFile_Open f w
  | None => (Err (ErrFileNotFound name), w)
  end.
Proof.
  induction fs as [| f t IH]; cbn.
  - reflexivity.
  - destruct (String.eqb (Name f) name); [reflexivity | exact IH].
Qed.

(** [NewRemoteZipFile] after a probe that passes the three tests. *)
Lemma NewRemoteZipFile_probe_ok (url : string) (w : World) (resp : Response) :
  urlError url = None ->
  roundTrip w (headRequest url) = Ok resp ->
  StatusCode resp = 200 ->
  headerGet (Header resp) "Accept-Ranges" = "bytes"%string ->
  0 < ContentLength resp ->
  NewRemoteZipFile url w
  = wrapErr "failed to read central directory"
            (readCentralDirectory (mkRemoteZipFile url (ContentLength resp) [] None))
            (snd (http_Do (headRequest url) w)).
Proof.
  intros Hurl Hrt Hst Hacc Hlen.
  unfold NewRemoteZipFile, bind at 1, wrapErr at 1.
  rewrite (http_Head_unfold _ _ Hurl), Hrt, Hst, Hacc.
  cbn [Z.eqb Pos.eqb negb size].
  change (String.eqb "bytes" "bytes") with true. cbn [negb].
  replace (ContentLength resp <=? 0) with false
    by (symmetry; apply Z.leb_gt; exact Hlen).
  reflexivity.
Qed.

(** C8 (as amended): when the answer to the probe lacks [Accept-Ranges:
    bytes] or a positive content length, [NewRemoteZipFile] fails and the
    probe is the only request made; with status 200 the error is the one
    for missing range support, or else the one for the missing size; with
    any other status it is the error for the unexpected status. *)
Theorem NewRemoteZipFile_rejects_probe (url : string) (w : World) (resp : Response) :
  urlError url = None ->
  roundTrip w (headRequest url) = Ok resp ->
  headerGet (Header resp) "Accept-Ranges" <> "bytes"%string
  \/ ContentLength resp <= 0 ->
  exists e : Error,
    fst (NewRemoteZipFile url w) = Err e
    /\ sent (snd (NewRemoteZipFile url w)) = sent w ++ [headRequest url]
    /\ (StatusCode resp = 200 ->
        headerGet (Header resp) "Accept-Ranges" <> "bytes"%string ->
        e = ErrNoRangeSupport)
    /\ (StatusCode resp = 200 ->
        headerGet (Header resp) "Accept-Ranges" = "bytes"%string ->
        e = ErrNoFileSize)
    /\ (StatusCode resp <> 200 -> e = ErrUnexpectedStatus (StatusCode resp)).
Proof.
  intros Hurl Hrt Hmissing.
  unfold NewRemoteZipFile, bind, wrapErr.
  rewrite (http_Head_unfold _ _ Hurl), Hrt.
  destruct (StatusCode resp =? 200) eqn:Hst; cbn [negb].
  - apply Z.eqb_eq in Hst.
    destruct (String.eqb (headerGet (Header resp) "Accept-Ranges") "bytes")
      eqn:Hacc; cbn [negb].
    + apply String.eqb_eq in Hacc.
      destruct Hmissing as [Hno | Hlen]; [contradiction |].
      cbn [size]. apply Z.leb_le in Hlen. rewrite Hlen.
      exists ErrNoFileSize. cbn. repeat split; intros; congruence.
    + exists ErrNoRangeSupport. cbn. apply String.eqb_neq in Hacc.
      repeat split; intros; congruence.
  - apply Z.eqb_neq in Hst.
    exists (ErrUnexpectedStatus (StatusCode resp)). cbn.
    repeat split; intros; congruence.
Qed.

(** C9 (as amended): [Close] closes the idle connections and nothing else:
    it cannot fail, it leaves the requests made and the streams as they
    were, and closing twice is closing once.  The handle has no closed
    state: after [Close], [Open] still hands the first entry of that name to
    the zip package, and fails only with the error for a name that is not
    in the archive. *)
Theorem Open_after_Close (rzf : RemoteZipFile) (name : string) (w : World) :
  let closed := snd (Close rzf w) in
  fst (Close rzf w) = Ok tt
  /\ sent closed = sent w /\ stdout closed = stdout w /\ idle closed = 0%nat
  /\ snd (Close rzf closed) = closed
  /\ (forall f, find (fun f => String.eqb (Name f) name) (files rzf) = Some f ->
                Open rzf name closed = zipFile_Open f closed)
  /\ (find (fun f => String.eqb (Name f) name) (files rzf) = None ->
      Open rzf name closed = (Err (ErrFileNotFound name), closed)).
Proof.
  cbn zeta. repeat split.
  - intros f Hf. unfold Open. rewrite openFirst_find, Hf. reflexivity.
  - intros Hf. unfold Open. rewrite openFirst_find, Hf. reflexivity.
Qed.

End HandleProperties.

Lemma NewRemoteZipFile_rejects_probe_witness :
  fst (@NewRemoteZipFile noRangesHost "http://host/six.zip" emptyWorld)
  = Err ErrNoRangeSupport
  /\ sent (snd (@NewRemoteZipFile noRangesHost "http://host/six.zip" emptyWorld))
     = [headRequest "http://host/six.zip"].
Proof.
  destruct (@NewRemoteZipFile_rejects_probe noRangesHost "http://host/six.zip"
              emptyWorld (mkResponse 200 [] 6 [] None) eq_refl eq_refl)
    as [e [Hres [Hsent [Hnorange _]]]].
  - left. discriminate.
  - split.
    + rewrite Hres. f_equal. apply Hnorange; [reflexivity | discriminate].
    + exact Hsent.
Defined.

(** The probe is answered with status 404, without [Accept-Ranges] and
    without a content length: opening fails, with the error for the status
    and not with one of the two errors for a server without range support. *)
Lemma NewRemoteZipFile_probe_404 :
  let resp := mkResponse 404 [] (-1) [] None in
  @roundTrip notFoundHost emptyWorld (headRequest "http://host/six.zip") = Ok resp
  /\ headerGet (Header resp) "Accept-Ranges" <> "bytes"%string
  /\ ContentLength resp <= 0
  /\ fst (@NewRemoteZipFile notFoundHost "http://host/six.zip" emptyWorld)
     = Err (ErrUnexpectedStatus 404)
  /\ ErrUnexpectedStatus 404 <> ErrNoRangeSupport
  /\ ErrUnexpectedStatus 404 <> ErrNoFileSize.
Proof.
  cbn zeta. repeat split; try discriminate; try (cbn; lia).
Qed.

Lemma Open_after_Close_witness :
  @Open threeHost threeHandle "c.bin" (snd (Close threeHandle emptyWorld))
  = (Ok (bytesOf "C"), emptyWorld)
  /\ @Open threeHost threeHandle "none" (snd (Close threeHandle emptyWorld))
     = (Err (ErrFileNotFound "none"), emptyWorld).
Proof.
  destruct (@Open_after_Close threeHost threeHandle "c.bin" emptyWorld)
    as [_ [_ [_ [_ [_ [Hfound _]]]]]].
  destruct (@Open_after_Close threeHost threeHandle "none" emptyWorld)
    as [_ [_ [_ [_ [_ [_ Hmissing]]]]]].
  split.
  - rewrite (Hfound (fileNamed "c.bin") eq_refl). reflexivity.
  - rewrite (Hmissing eq_refl). reflexivity.
Defined.

(** After [Close], an entry is opened and extracted as before: no
    operation fails because the handle was closed. *)
Lemma Extract_succeeds_after_Close :
  let closed := snd (Close threeHandle emptyWorld) in
  fst (@Open threeHost threeHandle "a.txt" closed) = Ok (bytesOf "AAA")
  /\ fst (@Extract threeHost threeHandle "a.txt" closed) = Ok (bytesOf "AAA").
Proof. cbn zeta. split; reflexivity. Qed.

(** ** Locating the end of the central directory *)

Lemma sigAt_slice (window : list byte) (i : nat) :
  sigAt window i = true <-> firstn 4 (skipn i window) = eocdSignature.
Proof.
  unfold sigAt, bytes_Equal, slice.
  replace (i + 4 - i)%nat with 4%nat by lia.
  destruct (list_eq_dec byte_eq_dec _ _); split; congruence.
Qed.

Lemma sigAt_In (window : list byte) (i : nat) :
  sigAt window i = true -> In x50 window.
Proof.
  intros H. apply sigAt_slice in H.
  rewrite <- (firstn_skipn i window). apply in_or_app. right.
  destruct (skipn i window) as [| b t]; [discriminate |].
  cbn in H. injection H as -> _. now left.
Qed.

(** The scan entered at [i] returns the greatest index up to [i] that
    holds the signature, and -1 when no index up to [i] does. *)
Lemma scanEOCD_spec (window : list byte) (i : nat) :
  (scanEOCD window i = -1
   /\ forall j, (j <= i)%nat -> sigAt window j = false)
  \/ (exists p, (p <= i)%nat
                /\ scanEOCD window i = Z.of_nat p
                /\ sigAt window p = true
                /\ forall j, (p < j <= i)%nat -> sigAt window j = false).
Proof.
  induction i as [| i IH]; cbn [scanEOCD]; fold (sigAt window 0);
    try fold (sigAt window (S i)).
  - destruct (sigAt window 0) eqn:H0.
    + right. exists 0%nat. repeat split; auto. intros j Hj. lia.
    + left. split; [reflexivity |]. intros j Hj.
      replace j with 0%nat by lia. exact H0.
  - destruct (sigAt window (S i)) eqn:HS.
    + right. exists (S i). repeat split; auto. intros j Hj. lia.
    + destruct IH as [[Hnone Hall] | [p [Hp [Hscan [Hsig Hafter]]]]].
      * left. split; [exact Hnone |]. intros j Hj.
        destruct (Nat.eq_dec j (S i)) as [-> | Hne]; [exact HS |].
        apply Hall. lia.
      * right. exists p. repeat split; auto. intros j Hj.
        destruct (Nat.eq_dec j (S i)) as [-> | Hne]; [exact HS |].
        apply Hafter. lia.
Qed.

Lemma findEOCD_cases (endData : list byte) :
  (findEOCD endData = -1
   /\ forall j, Z.of_nat j + 22 <= len endData -> sigAt endData j = false)
  \/ (exists p, Z.of_nat p + 22 <= len endData
                /\ findEOCD endData = Z.of_nat p
                /\ sigAt endData p = true
                /\ forall j, (p < j)%nat -> Z.of_nat j + 22 <= len endData ->
                             sigAt endData j = false).
Proof.
  unfold findEOCD. cbn zeta.
  destruct (len endData - 22 <? 0) eqn:Hshort.
  - apply Z.ltb_lt in Hshort. left. split; [reflexivity |].
    intros j Hj. lia.
  - apply Z.ltb_ge in Hshort.
    destruct (scanEOCD_spec endData (Z.to_nat (len endData - 22)))
      as [[Hnone Hall] | [p [Hp [Hscan [Hsig Hafter]]]]].
    + left. split; [exact Hnone |]. intros j Hj. apply Hall. lia.
    + right. exists p. repeat split; auto; try lia.
      intros j Hlt Hj. apply Hafter. lia.
Qed.

Lemma findEOCD_without_P (endData : list byte) :
  forallb (fun b => negb (Byte.eqb b x50)) endData = true ->
  findEOCD endData = -1.
Proof.
  intros Hall.
  destruct (findEOCD_cases endData) as [[Hnone _] | [p [_ [_ [Hsig _]]]]];
    [exact Hnone |].
  apply sigAt_In in Hsig.
  rewrite forallb_forall in Hall. specialize (Hall _ Hsig). discriminate.
Qed.

Lemma wrap64_small (z : Z) : - 2 ^ 63 <= z < 2 ^ 63 -> wrap64 z = z.
Proof. intros H. unfold wrap64. rewrite Z.mod_small; lia. Qed.

(** The window is the whole file up to 65536 bytes, and the last 65536
    bytes of a longer one. *)
Lemma tailStart_cases (rzf : RemoteZipFile) :
  0 < size rzf < 2 ^ 63 ->
  (size rzf <= 65536 -> tailStart rzf = 0)
  /\ (65536 < size rzf -> tailStart rzf = size rzf - 65536).
Proof.
  intros Hsize. unfold tailStart. split; intros H.
  - destruct (Z.gtb_spec 65536 (size rzf)).
    + rewrite Z.sub_diag. reflexivity.
    + replace (size rzf - 65536) with 0 by lia. reflexivity.
  - destruct (Z.gtb_spec 65536 (size rzf)); [lia |].
    apply wrap64_small. lia.
Qed.

Section DirectoryProperties.
Context {P : Platform}.

Lemma readCentralDirectory_unfold
    (rzf : RemoteZipFile) (w w' : World) (endData : list byte) :
  getRange rzf (tailStart rzf) (size rzf) w = (Ok endData, w') ->
  readCentralDirectory rzf w =
  if findEOCD endData <? 0 then (Err ErrNoEOCD, w')
  else if len (skipn (Z.to_nat (findEOCD endData)) endData) <? 22
       then (Err ErrEOCDTooShort, w')
       else (zipReader <- zip_NewReader (ReadAt rzf) (size rzf) ;;
             ret (mkRemoteZipFile (URL rzf) (size rzf) (File zipReader)
                                  (Some zipReader))) w'.
Proof.
  intros Hget. unfold readCentralDirectory, tailStart in *. cbn zeta.
  unfold bind at 1. rewrite Hget.
  destruct (findEOCD endData <? 0); [reflexivity |].
  destruct (len _ <? 22); reflexivity.
Qed.

Lemma readCentralDirectory_fetch_fails
    (rzf : RemoteZipFile) (w w' : World) (e : Error) :
  getRange rzf (tailStart rzf) (size rzf) w = (Err e, w') ->
  readCentralDirectory rzf w = (Err e, w').
Proof.
  intros Hget. unfold readCentralDirectory, tailStart in *. cbn zeta.
  unfold bind at 1. rewrite Hget. reflexivity.
Qed.

(** C1 (as amended): the scan takes the first match met from the end.
    Its result is the greatest index [p] with [p + 22 <= len endData] that
    holds the signature, so that the 22 fixed bytes of the record lie in
    the window, and nothing the record says about its comment is looked at;
    with such an index the window is accepted and the zip package parses
    the archive.  When no index holds the signature the result is -1 and
    [readCentralDirectory] fails with the error for a missing record. *)
Theorem findEOCD_takes_first_match_from_end
    (rzf : RemoteZipFile) (w w' : World) (endData : list byte) :
  getRange rzf (tailStart rzf) (size rzf) w = (Ok endData, w') ->
  (exists p : nat,
      findEOCD endData = Z.of_nat p
      /\ Z.of_nat p + 22 <= len endData
      /\ sigAt endData p = true
      /\ (forall j, (p < j)%nat -> Z.of_nat j + 22 <= len endData ->
                    sigAt endData j = false)
      /\ readCentralDirectory rzf w
         = (zipReader <- zip_NewReader (ReadAt rzf) (size rzf) ;;
            ret (mkRemoteZipFile (URL rzf) (size rzf) (File zipReader)
                                 (Some zipReader))) w')
  \/ (findEOCD endData = -1
      /\ (forall j, Z.of_nat j + 22 <= len endData -> sigAt endData j = false)
      /\ readCentralDirectory rzf w = (Err ErrNoEOCD, w')).
Proof.
  intros Hget. rewrite (readCentralDirectory_unfold _ _ _ _ Hget).
  destruct (findEOCD_cases endData)
    as [[Hnone Hall] | [p [Hp [Hscan [Hsig Hafter]]]]].
  - right. rewrite Hnone. repeat split; auto.
  - left. exists p. rewrite Hscan. repeat split; auto.
    replace (Z.of_nat p <? 0) with false by (symmetry; apply Z.ltb_ge; lia).
    rewrite Nat2Z.id.
    replace (len (skipn p endData) <? 22) with false; [reflexivity |].
    symmetry. apply Z.ltb_ge. unfold len in *. rewrite length_skipn. lia.
Qed.

End DirectoryProperties.

Lemma findEOCD_takes_first_match_from_end_witness :
  findEOCD craftedWindow = 22
  /\ fst (@readCentralDirectory craftedHost craftedHandle emptyWorld)
     = Ok (mkRemoteZipFile "http://host/crafted.zip" 48 (map fst threeEntries)
                           (Some (mkZipReader (map fst threeEntries)))).
Proof.
  destruct (@findEOCD_takes_first_match_from_end craftedHost craftedHandle
              emptyWorld
              (snd (@getRange craftedHost craftedHandle 0 48 emptyWorld))
              craftedWindow eq_refl)
    as [[p [Hscan [_ [_ [_ Hread]]]]] | [Hnone _]].
  - split; [reflexivity |]. rewrite Hread. reflexivity.
  - discriminate Hnone.
Defined.

(** In [craftedWindow] the record at 0 records the 26 bytes that follow it;
    the signature inside its comment, at 22, begins 22 bytes whose last two
    record a comment of 65535 bytes where 4 remain.  The rule of the design
    document selects 0; the scan selects 22. *)
Lemma findEOCD_selects_inconsistent_candidate :
  consistentAt craftedWindow 0 = true
  /\ sigAt craftedWindow 22 = true
  /\ recordedCommentLen craftedWindow 22 = 65535
  /\ impliedCommentLen craftedWindow 22 = 4
  /\ overruns craftedWindow 22 = true
  /\ consistentAt craftedWindow 22 = false
  /\ spec_rightmostConsistent craftedWindow = 0
  /\ findEOCD craftedWindow = 22.
Proof. repeat split. Qed.

(** C6, at the archive with the longest comment: the record is at 0 and
    records the 65535 bytes that follow it, the archive has 65557 bytes, the
    window asked for is its last 65536 bytes, from 21 on, the signature is
    not in it and opening fails. *)
Theorem NewRemoteZipFile_misses_record_before_longest_comment :
  len maxCommentArchive = 65557
  /\ consistentAt maxCommentArchive 0 = true
  /\ recordedCommentLen maxCommentArchive 0 = 65535
  /\ map (fun req => headerGet (ReqHeader req) "Range")
         (sent (snd (@NewRemoteZipFile maxCommentHost "http://host/big.zip" emptyWorld)))
     = [""; "bytes=21-65556"]%string
  /\ fst (@NewRemoteZipFile maxCommentHost "http://host/big.zip" emptyWorld)
     = Err (ErrWrap "failed to read central directory" ErrNoEOCD).
Proof.
  set (url := "http://host/big.zip"%string).
  set (rzf := mkRemoteZipFile url 65557 [] None).
  set (w1 := snd (@http_Do maxCommentHost (headRequest url) emptyWorld)).
  assert (Hcheck :
            match @getRange maxCommentHost rzf (tailStart rzf) (size rzf) w1 with
            | (Ok d, w2) =>
                forallb (fun b => negb (Byte.eqb b x50)) d
                && if list_eq_dec string_dec
                        (map (fun req => headerGet (ReqHeader req) "Range") (sent w2))
                        [""; "bytes=21-65556"]%string
                   then true else false
            | (Err _, _) => false
            end = true)
    by (vm_compute; reflexivity).
  destruct (@getRange maxCommentHost rzf (tailStart rzf) (size rzf) w1)
    as [[d | e] w2] eqn:Hget; [| discriminate Hcheck].
  apply andb_true_iff in Hcheck. destruct Hcheck as [Hd Hsent].
  destruct (list_eq_dec string_dec _ _) as [Hranges | _]; [| discriminate Hsent].
  assert (Hurl : @urlError maxCommentHost url = None) by reflexivity.
  assert (Hprobe : @roundTrip maxCommentHost emptyWorld (headRequest url)
                   = Ok (mkResponse 200 [("Accept-Ranges", "bytes")]%string
                                    65557 [] None))
    by (vm_compute; reflexivity).
  assert (Hopen : @NewRemoteZipFile maxCommentHost url emptyWorld
                  = (Err (ErrWrap "failed to read central directory" ErrNoEOCD), w2)).
  { rewrite (@NewRemoteZipFile_probe_ok maxCommentHost url emptyWorld _
               Hurl Hprobe eq_refl eq_refl eq_refl).
    unfold wrapErr.
    change (mkRemoteZipFile url
              (ContentLength (mkResponse 200 [("Accept-Ranges", "bytes")]%string
                                         65557 [] None)) [] None) with rzf.
    fold w1.
    rewrite (@readCentralDirectory_unfold maxCommentHost rzf w1 w2 d Hget).
    rewrite (findEOCD_without_P d Hd). reflexivity. }
  rewrite Hopen. cbn [fst snd].
  split; [vm_compute; reflexivity |].
  split; [vm_compute; reflexivity |].
  split; [vm_compute; reflexivity |].
  split; [exact Hranges | reflexivity].
Qed.

(** ** Strings *)

Lemma string_app_assoc (a b c : string) : ((a ++ b) ++ c = a ++ (b ++ c))%string.
Proof. induction a as [| x a IH]; cbn; [reflexivity | now rewrite IH]. Qed.

Lemma string_app_length (a b : string) :
  String.length (a ++ b) = (String.length a + String.length b)%nat.
Proof. induction a as [| x a IH]; cbn; [reflexivity | now rewrite IH]. Qed.

Lemma substring_whole (s : string) : substring 0 (String.length s) s = s.
Proof. induction s as [| x s IH]; cbn; [reflexivity | now rewrite IH]. Qed.

Lemma substring_app_left (a b : string) :
  substring 0 (String.length a) (a ++ b) = a.
Proof.
  induction a as [| x a IH]; cbn.
  - destruct b; reflexivity.
  - now rewrite IH.
Qed.

Lemma substring_app_right (a b : string) (m : nat) :
  substring (String.length a) m (a ++ b) = substring 0 m b.
Proof. induction a as [| x a IH]; cbn; [reflexivity | exact IH]. Qed.

Lemma substring_split (s : string) (k : nat) :
  (k <= String.length s)%nat ->
  s = (substring 0 k s ++ substring k (String.length s - k) s)%string.
Proof.
  revert k. induction s as [| x s IH]; intros [| k] Hk; cbn in *.
  - reflexivity.
  - lia.
  - now rewrite substring_whole.
  - f_equal. apply IH. lia.
Qed.

Lemma strings_HasPrefix_iff (s prefix : string) :
  strings_HasPrefix s prefix = true <-> exists x, s = (prefix ++ x)%string.
Proof.
  unfold strings_HasPrefix. rewrite andb_true_iff, Nat.leb_le, String.eqb_eq.
  split.
  - intros [Hlen Hsub].
    exists (substring (String.length prefix)
                      (String.length s - String.length prefix) s).
    rewrite <- Hsub at 1. apply substring_split. exact Hlen.
  - intros [x ->]. rewrite string_app_length, substring_app_left.
    split; [lia | reflexivity].
Qed.

Lemma strings_HasSuffix_iff (s suffix : string) :
  strings_HasSuffix s suffix = true <-> exists y, s = (y ++ suffix)%string.
Proof.
  unfold strings_HasSuffix. rewrite andb_true_iff, Nat.leb_le, String.eqb_eq.
  split.
  - intros [Hlen Hsub].
    exists (substring 0 (String.length s - String.length suffix) s).
    pose proof (substring_split s (String.length s - String.length suffix)) as H.
    replace (String.length s - (String.length s - String.length suffix))%nat
      with (String.length suffix) in H by lia.
    rewrite Hsub in H. apply H. lia.
  - intros [y ->]. rewrite string_app_length.
    replace (String.length y + String.length suffix - String.length suffix)%nat
      with (String.length y) by lia.
    rewrite substring_app_right, substring_whole.
    split; [lia | reflexivity].
Qed.

Lemma countByte_app (a b : string) (c : ascii) :
  countByte (a ++ b) c = (countByte a c + countByte b c)%nat.
Proof.
  induction a as [| x a IH]; cbn; [reflexivity |].
  destruct (Ascii.eqb x c); rewrite IH; reflexivity.
Qed.

Lemma strings_Contains_byte_count (s : string) (c : ascii) :
  strings_Contains_byte s c = negb (countByte s c =? 0)%nat.
Proof.
  induction s as [| x s IH]; cbn; [reflexivity |].
  destruct (Ascii.eqb x c); cbn; [reflexivity | exact IH].
Qed.

Lemma strings_Split_length (s : string) (c : ascii) :
  List.length (strings_Split s c) = S (countByte s c).
Proof.
  induction s as [| x s IH]; cbn; [reflexivity |].
  destruct (Ascii.eqb x c); cbn; [now rewrite IH |].
  destruct (strings_Split s c); cbn in *; [discriminate | exact IH].
Qed.

Lemma strings_Split_without (s : string) (c : ascii) :
  countByte s c = 0%nat -> strings_Split s c = [s].
Proof.
  induction s as [| x s IH]; cbn; [reflexivity |].
  destruct (Ascii.eqb x c); [discriminate |].
  intros H. rewrite (IH H). reflexivity.
Qed.

Lemma strings_Split_at (pre suf : string) (c : ascii) :
  countByte pre c = 0%nat ->
  strings_Split (pre ++ String c suf) c = pre :: strings_Split suf c.
Proof.
  induction pre as [| x pre IH]; cbn.
  - intros _. rewrite Ascii.eqb_refl. reflexivity.
  - destruct (Ascii.eqb x c); [discriminate |].
    intros H. rewrite (IH H). reflexivity.
Qed.

(** ** Patterns *)

Section PatternProperties.
Context {P : Platform}.

Lemma filepath_ToSlash_FromSlash (path : string) :
  filepath_ToSlash (filepath_FromSlash path) = filepath_ToSlash path.
Proof.
  unfold filepath_ToSlash, filepath_FromSlash.
  destruct (Ascii.eqb PathSeparator "/") eqn:Hsep; [reflexivity |].
  induction path as [| a t IH]; cbn; [reflexivity |].
  rewrite IH. f_equal.
  destruct (Ascii.eqb a "/") eqn:Ha.
  - rewrite Ascii.eqb_refl. apply Ascii.eqb_eq in Ha. subst a.
    rewrite Ascii.eqb_sym, Hsep. reflexivity.
  - reflexivity.
Qed.

(** [matchPattern] looks at the name through [filepath.ToSlash] only. *)
Lemma matchPattern_FromSlash (pattern name : string) :
  matchPattern pattern (filepath_FromSlash name) = matchPattern pattern name.
Proof. unfold matchPattern. rewrite filepath_ToSlash_FromSlash. reflexivity. Qed.

Lemma matchPattern_no_wildcard (pattern name : string) :
  countByte (filepath_ToSlash pattern) "*" = 0%nat ->
  matchPattern pattern name
  = String.eqb (filepath_ToSlash pattern) (filepath_ToSlash name).
Proof.
  intros H. unfold matchPattern. cbn zeta.
  rewrite strings_Contains_byte_count, H. cbn.
  destruct (String.eqb _ _); reflexivity.
Qed.

Lemma matchPattern_one_wildcard (pattern name pre suf : string) :
  filepath_ToSlash pattern = (pre ++ "*" ++ suf)%string ->
  countByte pre "*" = 0%nat -> countByte suf "*" = 0%nat ->
  matchPattern pattern name
  = String.eqb (filepath_ToSlash pattern) (filepath_ToSlash name)
    || (strings_HasPrefix (filepath_ToSlash name) pre
        && strings_HasSuffix (filepath_ToSlash name) suf).
Proof.
  intros Hp Hpre Hsuf. unfold matchPattern. cbn zeta.
  destruct (String.eqb _ _); [reflexivity |]. cbn [orb].
  rewrite Hp, strings_Contains_byte_count. cbn [append].
  rewrite countByte_app, strings_Split_at, strings_Split_without by assumption.
  cbn. rewrite Hpre, Hsuf. reflexivity.
Qed.

Lemma matchPattern_more_wildcards (pattern name : string) :
  (2 <= countByte (filepath_ToSlash pattern) "*")%nat ->
  matchPattern pattern name
  = String.eqb (filepath_ToSlash pattern) (filepath_ToSlash name).
Proof.
  intros H. unfold matchPattern. cbn zeta.
  destruct (String.eqb _ _); [reflexivity |].
  pose proof (strings_Split_length (filepath_ToSlash pattern) "*") as Hlen.
  destruct (strings_Contains_byte _ _); [| reflexivity].
  destruct (strings_Split _ _) as [| a [| b [| c l]]]; cbn in Hlen;
    try reflexivity; lia.
Qed.

(** The loop of [extractFiles] over entries the pattern does not match:
    nothing happens and the flag stays as it was. *)
Lemma extractLoop_unmatched (rzf : RemoteZipFile) (pattern : string)
    (rs ws : bool) (fs : list ZipFile) (matched : bool) (w : World) :
  (forall f, In f fs -> matchPattern pattern (Name f) = false) ->
  extractLoop rzf pattern rs ws fs matched w = (Ok matched, w).
Proof.
  induction fs as [| f t IH]; intros Hno; cbn [extractLoop].
  - reflexivity.
  - rewrite matchPattern_FromSlash, (Hno f) by now left. cbn [orb].
    apply IH. intros g Hg. apply Hno. now right.
Qed.

Lemma extractFiles_unmatched (rzf : RemoteZipFile) (pattern : string)
    (rs ws : bool) (w : World) :
  (forall f, In f (Files rzf) -> matchPattern pattern (Name f) = false) ->
  extractFiles rzf pattern rs ws w = (Err (ErrNoFilesMatched pattern), w).
Proof.
  intros Hno. unfold extractFiles, bind.
  rewrite (extractLoop_unmatched _ _ _ _ _ _ _ Hno). reflexivity.
Qed.

(** C4 (as amended): pattern and name are compared after
    [filepath.ToSlash], which leaves them as they are on a host whose
    separator is the slash.  A pattern without an asterisk matches the
    names equal to it; a pattern [pre*suf] with one asterisk matches the
    names that start with [pre] and end with [suf], which may overlap. *)
Theorem matchPattern_exact_or_prefix_suffix (pattern name : string) :
  let p := filepath_ToSlash pattern in
  let n := filepath_ToSlash name in
  (PathSeparator = "/"%char -> p = pattern /\ n = name)
  /\ (countByte p "*" = 0%nat -> (matchPattern pattern name = true <-> n = p))
  /\ (forall pre suf : string,
        p = (pre ++ "*" ++ suf)%string ->
        countByte pre "*" = 0%nat -> countByte suf "*" = 0%nat ->
        (matchPattern pattern name = true <->
         (exists x, n = (pre ++ x)%string) /\ (exists y, n = (y ++ suf)%string))).
Proof.
  cbn zeta. split; [| split].
  - intros Hsep. unfold filepath_ToSlash. rewrite Hsep. cbn. split; reflexivity.
  - intros H0. rewrite (matchPattern_no_wildcard _ _ H0), String.eqb_eq.
    split; congruence.
  - intros pre suf Hp Hpre Hsuf.
    rewrite (matchPattern_one_wildcard _ _ _ _ Hp Hpre Hsuf).
    rewrite orb_true_iff, andb_true_iff, String.eqb_eq,
      strings_HasPrefix_iff, strings_HasSuffix_iff.
    split; [| now right].
    intros [Heq | H]; [| exact H].
    rewrite <- Heq, Hp. split.
    + exists ("*" ++ suf)%string. reflexivity.
    + exists (pre ++ "*")%string. rewrite string_app_assoc. reflexivity.
Qed.

(** C5 (as amended): a pattern with two asterisks or more is not rejected;
    it matches the names equal to it, and when no entry has such a name
    [extractFiles] fails with the error of a pattern that matched nothing,
    having done nothing. *)
Theorem matchPattern_many_wildcards (rzf : RemoteZipFile) (pattern : string)
    (recreateStructure writeStdout : bool) (w : World) :
  (2 <= countByte (filepath_ToSlash pattern) "*")%nat ->
  (forall name, matchPattern pattern name = true
                <-> filepath_ToSlash name = filepath_ToSlash pattern)
  /\ ((forall f, In f (Files rzf) ->
                 filepath_ToSlash (Name f) <> filepath_ToSlash pattern) ->
      extractFiles rzf pattern recreateStructure writeStdout w
      = (Err (ErrNoFilesMatched pattern), w)).
Proof.
  intros Hmany. split.
  - intros name. rewrite (matchPattern_more_wildcards _ _ Hmany), String.eqb_eq.
    split; congruence.
  - intros Hno. apply extractFiles_unmatched. intros f Hf.
    rewrite (matchPattern_more_wildcards _ _ Hmany).
    apply String.eqb_neq. intros Heq. apply (Hno f Hf). congruence.
Qed.

End PatternProperties.

Lemma matchPattern_exact_or_prefix_suffix_witness :
  @matchPattern threeHost "*.txt" "a.txt" = true
  /\ @matchPattern threeHost "*.txt" "dir/b.txt" = true
  /\ @matchPattern threeHost "*.txt" "a.txt.bak" = false
  /\ @matchPattern threeHost "*" "" = true
  /\ @matchPattern threeHost "ab*bc" "abc" = true
  /\ (forall name, @matchPattern threeHost "a.txt" name = true <-> name = "a.txt"%string).
Proof.
  destruct (@matchPattern_exact_or_prefix_suffix threeHost "*.txt" "dir/b.txt")
    as [_ [_ Hone]].
  split; [reflexivity |]. split.
  - apply (Hone ""%string ".txt"%string eq_refl eq_refl eq_refl). split.
    + exists "dir/b.txt"%string. reflexivity.
    + exists "dir/b"%string. reflexivity.
  - split; [reflexivity |]. split; [reflexivity |]. split; [reflexivity |].
    intros name.
    destruct (@matchPattern_exact_or_prefix_suffix threeHost "a.txt" name)
      as [Hslash [Hexact _]].
    destruct (Hslash eq_refl) as [_ Hname]. rewrite Hname in Hexact.
    apply Hexact. reflexivity.
Defined.

(** On a host whose separator is the backslash, a pattern without an
    asterisk matches a name that is not equal to it. *)
Lemma matchPattern_backslash_pattern :
  countByte "dir\b.txt" "*" = 0%nat
  /\ "dir\b.txt"%string <> "dir/b.txt"%string
  /\ @matchPattern windowsHost "dir\b.txt" "dir/b.txt" = true.
Proof. repeat split. discriminate. Qed.

Lemma matchPattern_many_wildcards_witness :
  @matchPattern threeHost "a*b*c" "a*b*c" = true
  /\ @extractFiles threeHost threeHandle "a*b*c" false true emptyWorld
     = (Err (ErrNoFilesMatched "a*b*c"), emptyWorld).
Proof.
  destruct (@matchPattern_many_wildcards threeHost threeHandle "a*b*c"
              false true emptyWorld) as [Hmatch Hnone].
  - cbn. lia.
  - split.
    + apply Hmatch. reflexivity.
    + apply Hnone. intros f Hf. cbn in Hf.
      destruct Hf as [<- | [<- | [<- | []]]]; discriminate.
Defined.

(** A pattern with two asterisks is taken as it is: the entry of that very
    name is extracted, and where no entry has that name the error is the
    one any pattern gets that matched nothing. *)
Lemma extractFiles_accepts_two_wildcards :
  countByte "a*b*c" "*" = 2%nat
  /\ @extractFiles starHost starHandle "a*b*c" false true emptyWorld
     = (Ok tt, mkWorld [] 0 (bytesOf "X") [] [])
  /\ @extractFiles threeHost threeHandle "a*b*c" false true emptyWorld
     = (Err (ErrNoFilesMatched "a*b*c"), emptyWorld)
  /\ @extractFiles threeHost threeHandle "zzz" false true emptyWorld
     = (Err (ErrNoFilesMatched "zzz"), emptyWorld).
Proof. repeat split. Qed.

(** ** Writing several entries to the standard output *)

Lemma lookupContent_of_entry (table : list (ZipFile * list byte)) (f : ZipFile) :
  In f (map fst table) -> lookupContent table (Name f) = Some (contentIn table f).
Proof.
  unfold contentIn. induction table as [| [g data] t IH]; cbn; [tauto |].
  intros [-> | Hin].
  - rewrite String.eqb_refl. reflexivity.
  - destruct (String.eqb (Name g) (Name f)); [reflexivity | exact (IH Hin)].
Qed.

Section StdoutOrder.
Variable sep : ascii.
Variable server : World -> Request -> Result Response.
Variable table : list (ZipFile * list byte).
Variable rzf : RemoteZipFile.
Hypothesis files_of_table : files rzf = map fst table.

Local Notation "'host'" := (hostWith sep server table).

Lemma Extract_of_entry (f : ZipFile) (w : World) :
  In f (files rzf) ->
  @Extract host rzf (Name f) w = (Ok (contentIn table f), w).
Proof.
  intros Hin. unfold Extract, Open, bind. rewrite (@openFirst_find host).
  destruct (find (fun g => String.eqb (Name g) (Name f)) (files rzf))
    as [g |] eqn:Hfind.
  - apply find_some in Hfind. destruct Hfind as [Hg Hname].
    apply String.eqb_eq in Hname. cbn.
    rewrite files_of_table in Hg, Hin.
    rewrite Hname, (lookupContent_of_entry table f Hin). reflexivity.
  - exfalso. apply (find_none _ _ Hfind) in Hin.
    rewrite String.eqb_refl in Hin. discriminate.
Qed.

(** The loop of [extractFiles] in the mode that writes to the standard
    output: the selected entries are written in the order of the loop. *)
Lemma extractLoop_stdout (pattern : string) (rs : bool) (fs : list ZipFile)
    (matched : bool) (w : World) :
  incl fs (files rzf) ->
  @extractLoop host rzf pattern rs true fs matched w
  = (Ok (matched || existsb (fun f => @matchPattern host pattern (Name f)) fs),
     mkWorld (sent w) (idle w)
             (stdout w ++ flat_map (contentIn table) (filter (@selected host pattern) fs))
             (stderr w) (disk w)).
Proof.
  revert matched w. induction fs as [| f t IH]; intros matched w Hincl.
  - cbn. rewrite orb_false_r, app_nil_r. destruct w; reflexivity.
  - assert (Hf : In f (files rzf)) by (apply Hincl; now left).
    assert (Ht : incl t (files rzf)) by (intros g Hg; apply Hincl; now right).
    cbn [extractLoop existsb filter]. unfold selected at 1.
    rewrite (@matchPattern_FromSlash host), orb_diag.
    destruct (@matchPattern host pattern (Name f)); cbn [andb orb].
    + destruct (IsDir f); cbn [negb].
      * rewrite (IH true w Ht), orb_true_r. reflexivity.
      * unfold bind at 1, wrapErr. rewrite (Extract_of_entry f w Hf).
        unfold bind at 1, write_stdout. rewrite (IH _ _ Ht).
        cbn [sent idle stdout stderr disk flat_map].
        rewrite orb_true_r, <- app_assoc. reflexivity.
    + rewrite (IH matched w Ht). reflexivity.
Qed.

Lemma extractFiles_stdout (pattern : string) (rs : bool) (w : World) :
  stdout (snd (@extractFiles host rzf pattern rs true w))
  = stdout w ++ flat_map (contentIn table)
                         (filter (@selected host pattern) (map fst table)).
Proof.
  unfold extractFiles, bind, Files.
  rewrite (extractLoop_stdout pattern rs (files rzf) false w (incl_refl _)).
  rewrite files_of_table.
  destruct (negb _); reflexivity.
Qed.

(** The loop of [main] over the patterns: the output is made pattern after
    pattern. *)
Lemma extractAll_stdout (patterns : list string) (rs : bool) (w : World) :
  stdout (snd (@extractAll host rzf patterns rs true w))
  = stdout w ++ @patternOrderOutput host table patterns.
Proof.
  revert w. induction patterns as [| pattern rest IH]; intros w.
  - cbn. now rewrite app_nil_r.
  - cbn [extractAll]. unfold bind at 1.
    pose proof (extractFiles_stdout pattern rs w) as Hone.
    destruct (@extractFiles host rzf pattern rs true w) as [[[] | e] w1];
      cbn [snd] in Hone.
    + rewrite IH, Hone. unfold patternOrderOutput. cbn [flat_map].
      now rewrite app_assoc.
    + unfold print_stderr, write_stderr. rewrite IH. cbn [stdout].
      rewrite Hone. unfold patternOrderOutput. cbn [flat_map].
      now rewrite app_assoc.
Qed.

End StdoutOrder.

(** C3, at the archive of three entries with the patterns c.bin and a.txt
    in this order: the bytes of c.bin are written before those of a.txt,
    which comes first in the archive.  With the one pattern of the scenario
    the output is in the order of the archive; an entry that two patterns
    select is written twice. *)
Theorem main_writes_stdout_in_pattern_order :
  let run := fun patterns =>
    stdout (snd (@main craftedHost false false true
                   ("http://host/crafted.zip"%string :: patterns) emptyWorld)) in
  map Name (map fst threeEntries) = ["a.txt"; "dir/b.txt"; "c.bin"]%string
  /\ run ["*.txt"]%string = bytesOf "AAA" ++ bytesOf "BB"
  /\ run ["c.bin"; "a.txt"]%string = bytesOf "C" ++ bytesOf "AAA"
  /\ @archiveOrderOutput craftedHost threeEntries ["c.bin"; "a.txt"]%string
     = bytesOf "AAA" ++ bytesOf "C"
  /\ run ["*.txt"; "a.txt"]%string = bytesOf "AAA" ++ bytesOf "BB" ++ bytesOf "AAA".
Proof. cbn zeta. repeat split. Qed.

(** * Further properties of the code *)

(** ** The Range header and a server that honours it *)

Lemma of_lu_nat_N (d : Decimal.uint) :
  N.of_nat (DecimalNat.Unsigned.of_lu d) = DecimalPos.Unsigned.of_lu d.
Proof.
  induction d; cbn [DecimalNat.Unsigned.of_lu DecimalPos.Unsigned.of_lu];
    try reflexivity; rewrite <- IHd; lia.
Qed.

Lemma Nat_of_uint_Pos_to_uint (p : positive) :
  Nat.of_uint (Pos.to_uint p) = Pos.to_nat p.
Proof.
  apply Nat2N.inj.
  rewrite DecimalNat.Unsigned.of_uint_alt, of_lu_nat_N,
    <- DecimalPos.Unsigned.of_uint_alt, DecimalPos.Unsigned.of_to.
  now rewrite positive_nat_N.
Qed.

Lemma parseDecimal_fmtD (z : Z) : 0 <= z -> parseDecimal (fmtD z) = Some (Z.to_nat z).
Proof.
  intros Hz. unfold parseDecimal, fmtD.
  destruct z as [| p | p]; [reflexivity | | lia].
  cbn [Z.to_int NilZero.string_of_int].
  rewrite NilZero.usu by apply DecimalPos.Unsigned.to_uint_nonnil.
  cbn [option_map]. now rewrite Nat_of_uint_Pos_to_uint.
Qed.

(** Decimal digits only. *)
Lemma string_of_uint_no_dash (d : Decimal.uint) :
  strings_Contains_byte (NilEmpty.string_of_uint d) "-" = false.
Proof. induction d; cbn; auto. Qed.

Lemma fmtD_no_dash (z : Z) : 0 <= z -> strings_Contains_byte (fmtD z) "-" = false.
Proof.
  intros Hz. unfold fmtD. destruct z as [| p | p]; [reflexivity | | lia].
  cbn [Z.to_int NilZero.string_of_int]. unfold NilZero.string_of_uint.
  pose proof (string_of_uint_no_dash (Pos.to_uint p)).
  destruct (Pos.to_uint p); auto.
Qed.

Lemma splitAtDash_app (a b : string) :
  strings_Contains_byte a "-" = false ->
  splitAtDash (a ++ String "-" b) = Some (a, b).
Proof.
  induction a as [| x a IH]; cbn; [reflexivity |].
  destruct (Ascii.eqb x "-"); [discriminate |].
  cbn. intros H. now rewrite (IH H).
Qed.

Lemma parseRange_rangeValue (s e : Z) :
  0 <= s -> 0 < e < 2 ^ 63 ->
  parseRange (rangeValue s e) = Some (Z.to_nat s, Z.to_nat e).
Proof.
  intros Hs He. unfold parseRange, rangeValue.
  rewrite wrap64_small by lia.
  set (rest := (fmtD s ++ "-" ++ fmtD (e - 1))%string).
  replace (String.prefix "bytes=" ("bytes=" ++ rest)) with true
    by (symmetry; apply prefix_correct, substring_app_left).
  change 6%nat with (String.length "bytes=").
  rewrite string_app_length, Nat.add_comm, Nat.add_sub,
    substring_app_right, substring_whole.
  subst rest. cbn [append].
  rewrite splitAtDash_app by (apply fmtD_no_dash; lia).
  rewrite !parseDecimal_fmtD by lia.
  do 2 f_equal. lia.
Qed.

Lemma copy_length {A} (dst src : list A) :
  List.length (copy dst src) = List.length dst.
Proof.
  unfold copy. rewrite length_app, length_firstn, length_skipn. lia.
Qed.

Lemma copy_same_length {A} (dst src : list A) :
  List.length src = List.length dst -> copy dst src = src.
Proof.
  intros H. unfold copy. rewrite <- H, firstn_all, skipn_all2 by lia.
  apply app_nil_r.
Qed.

Section HonestServer.
Variable sep : ascii.
Variable content : list byte.
Variable table : list (ZipFile * list byte).

Local Notation "'host'" := (hostWith sep (honestServer content) table).

Lemma getRange_honest (rzf : RemoteZipFile) (s e : Z) (w : World) :
  0 <= s < e -> s < len content -> e < 2 ^ 63 ->
  @getRange host rzf s e w
  = (Ok (slice content (Z.to_nat s) (Nat.min (Z.to_nat e) (List.length content))),
     mkWorld (sent w ++ [rangeRequest (URL rzf) s e]) 1 (stdout w) (stderr w) (disk w)).
Proof.
  intros Hse Hs He.
  rewrite (@getRange_unfold host rzf s e w eq_refl). cbn zeta.
  change (@roundTrip host w (rangeRequest (URL rzf) s e))
    with (honestServer content w (rangeRequest (URL rzf) s e)).
  unfold honestServer, rangeRequest. cbn [Method ReqHeader headerSet filter app headerGet].
  change (String.eqb "GET" "HEAD") with false. cbv iota.
  change (String.eqb "Range" "Range") with true. cbv iota.
  rewrite parseRange_rangeValue by lia.
  replace (Z.to_nat s <? Nat.min (Z.to_nat e) (List.length content))%nat with true
    by (symmetry; apply Nat.ltb_lt; unfold len in *; lia).
  reflexivity.
Qed.

(** X1: against a server that honours byte ranges, [getRange] returns for
    every range [s, e) that starts inside the resource the bytes from [s]
    up to [e], or up to the end of the resource when [e] lies beyond it;
    for a range inside the resource these are [e - s] bytes.  One request
    is made, with the inclusive header [bytes=s-(e-1)]. *)
Theorem getRange_from_honest_server (rzf : RemoteZipFile) (s e : Z) (w : World) :
  0 <= s < e -> s < len content -> e < 2 ^ 63 ->
  fst (@getRange host rzf s e w)
  = Ok (slice content (Z.to_nat s) (Nat.min (Z.to_nat e) (List.length content)))
  /\ sent (snd (@getRange host rzf s e w))
     = sent w ++ [mkRequest "GET" (URL rzf)
                            [("Range", "bytes=" ++ fmtD s ++ "-" ++ fmtD (e - 1))]%string]
  /\ (e <= len content ->
      fst (@getRange host rzf s e w) = Ok (slice content (Z.to_nat s) (Z.to_nat e))
      /\ len (slice content (Z.to_nat s) (Z.to_nat e)) = e - s).
Proof.
  intros Hse Hs He. rewrite (getRange_honest rzf s e w Hse Hs He).
  cbn [fst snd sent]. split; [reflexivity |]. split.
  - unfold rangeRequest, rangeValue. rewrite wrap64_small by lia. reflexivity.
  - intros Hin. unfold len in *.
    rewrite Nat.min_l by lia. split; [reflexivity |].
    rewrite slice_length by lia. lia.
Qed.

(** X2: against a server that honours byte ranges, [ReadAt] with a buffer
    that is not empty and lies inside the resource fills the whole buffer
    with the bytes of the resource at that offset and returns the length of
    the buffer with a nil error; a buffer that reaches beyond the end gets
    the bytes up to the end and their number. *)
Theorem ReadAt_from_honest_server (rzf : RemoteZipFile) (p : list byte) (off : Z)
    (w : World) :
  0 <= off < len content -> 0 < len p -> off + len p < 2 ^ 63 ->
  (off + len p <= len content ->
   fst (@ReadAt host rzf p off w)
   = (slice content (Z.to_nat off) (Z.to_nat off + List.length p), len p, None))
  /\ (len content < off + len p ->
      readN (fst (@ReadAt host rzf p off w)) = len content - off
      /\ readErr (fst (@ReadAt host rzf p off w)) = None
      /\ readBuf (fst (@ReadAt host rzf p off w))
         = skipn (Z.to_nat off) content
           ++ skipn (List.length content - Z.to_nat off) p).
Proof.
  intros Hoff Hp Hmax. unfold ReadAt.
  rewrite wrap64_small by (unfold len in *; lia).
  rewrite (getRange_honest rzf off (off + len p) w) by (unfold len in *; lia).
  unfold len in *. split; intros Hend.
  - rewrite Nat.min_l by lia.
    replace (Z.to_nat (off + Z.of_nat (List.length p)))
      with (Z.to_nat off + List.length p)%nat by lia.
    assert (Hlen : List.length (slice content (Z.to_nat off)
                                      (Z.to_nat off + List.length p))
                   = List.length p) by (rewrite slice_length; lia).
    cbn [fst]. rewrite copy_same_length by exact Hlen.
    unfold len. rewrite Hlen. reflexivity.
  - rewrite Nat.min_r by lia. cbn [fst]. unfold readN, readErr, readBuf. cbn [fst snd].
    assert (Hslice : slice content (Z.to_nat off) (List.length content)
                     = skipn (Z.to_nat off) content).
    { unfold slice. apply firstn_all2. rewrite length_skipn. lia. }
    rewrite Hslice. unfold len, copy. rewrite length_skipn.
    repeat split; [lia |].
    rewrite firstn_all2 by (rewrite length_skipn; lia). reflexivity.
Qed.

End HonestServer.

Lemma getRange_from_honest_server_witness :
  fst (@getRange honestHost sixHandle 2 5 emptyWorld) = Ok [x03; x04; x05]
  /\ len [x03; x04; x05] = 5 - 2.
Proof.
  assert (Hse : 0 <= 2 < 5) by lia.
  assert (Hs : 2 < len sixBytes) by (vm_compute; reflexivity).
  assert (He : 5 < 2 ^ 63) by lia.
  assert (Hin : 5 <= len sixBytes) by (vm_compute; discriminate).
  destruct (getRange_from_honest_server "/" sixBytes [] sixHandle 2 5 emptyWorld
              Hse Hs He) as [_ [_ Hinside]].
  destruct (Hinside Hin) as [Hres Hlen].
  split; [exact Hres | exact Hlen].
Defined.

Lemma ReadAt_from_honest_server_witness :
  fst (@ReadAt honestHost sixHandle [x00; x00] 1 emptyWorld) = ([x02; x03], 2, None)
  /\ readN (fst (@ReadAt honestHost sixHandle [x00; x00; x00] 5 emptyWorld)) = 1.
Proof.
  assert (Hoff1 : 0 <= 1 < len sixBytes) by (split; [lia | vm_compute; reflexivity]).
  assert (Hp1 : 0 < len [x00; x00]) by (vm_compute; reflexivity).
  assert (Hmax1 : 1 + len [x00; x00] < 2 ^ 63) by (vm_compute; reflexivity).
  assert (Hin1 : 1 + len [x00; x00] <= len sixBytes) by (vm_compute; discriminate).
  assert (Hoff2 : 0 <= 5 < len sixBytes) by (split; [lia | vm_compute; reflexivity]).
  assert (Hp2 : 0 < len [x00; x00; x00]) by (vm_compute; reflexivity).
  assert (Hmax2 : 5 + len [x00; x00; x00] < 2 ^ 63) by (vm_compute; reflexivity).
  assert (Hout2 : len sixBytes < 5 + len [x00; x00; x00]) by (vm_compute; reflexivity).
  destruct (ReadAt_from_honest_server "/" sixBytes [] sixHandle [x00; x00] 1 emptyWorld
              Hoff1 Hp1 Hmax1) as [Hin _].
  destruct (ReadAt_from_honest_server "/" sixBytes [] sixHandle [x00; x00; x00] 5
              emptyWorld Hoff2 Hp2 Hmax2) as [_ Hshort].
  split.
  - exact (Hin Hin1).
  - exact (proj1 (Hshort Hout2)).
Defined.

Section ReadAtProperties.
Context {P : Platform}.

(** X3: when [getRange] succeeds, [ReadAt] returns the number of bytes
    received, also when it is greater than the length of the buffer; the
    buffer keeps its length and holds the first bytes received, followed by
    what it held beyond them. *)
Theorem ReadAt_reports_bytes_received
    (rzf : RemoteZipFile) (p data : list byte) (off : Z) (w : World) :
  fst (getRange rzf off (wrap64 (off + len p)) w) = Ok data ->
  readN (fst (ReadAt rzf p off w)) = len data
  /\ readErr (fst (ReadAt rzf p off w)) = None
  /\ len (readBuf (fst (ReadAt rzf p off w))) = len p
  /\ readBuf (fst (ReadAt rzf p off w))
     = firstn (List.length p) data ++ skipn (List.length data) p
  /\ (len p <= len data ->
      readBuf (fst (ReadAt rzf p off w)) = firstn (List.length p) data)
  /\ (len p < len data -> len p < readN (fst (ReadAt rzf p off w))).
Proof.
  intros Hget. unfold ReadAt.
  destruct (getRange rzf off (wrap64 (off + len p)) w) as [[d | e] w'];
    cbn [fst] in Hget; [| discriminate].
  injection Hget as ->. unfold readN, readErr, readBuf. cbn [fst snd].
  repeat split.
  - unfold len. now rewrite copy_length.
  - intros Hle. unfold copy, len in *.
    rewrite skipn_all2 by lia. apply app_nil_r.
  - intros Hlt. exact Hlt.
Qed.

End ReadAtProperties.

Lemma ReadAt_reports_bytes_received_witness :
  readN (fst (@ReadAt wholeBodyHost sixHandle [x00; x00] 1 emptyWorld)) = 6
  /\ readBuf (fst (@ReadAt wholeBodyHost sixHandle [x00; x00] 1 emptyWorld))
     = [x01; x02].
Proof.
  destruct (@ReadAt_reports_bytes_received wholeBodyHost sixHandle [x00; x00]
              sixBytes 1 emptyWorld eq_refl) as [Hn [_ [_ [Hbuf _]]]].
  split; [exact Hn | exact Hbuf].
Defined.

(** ** The scan of the tail window *)

Lemma sigAt_at_signature (before rest : list byte) :
  sigAt (before ++ eocdSignature ++ rest) (List.length before) = true.
Proof.
  apply sigAt_slice. rewrite skipn_app, skipn_all, Nat.sub_diag. reflexivity.
Qed.

Lemma skipn_head_In {A} (l : list A) (n : nat) (x : A) (t : list A) :
  skipn n l = x :: t -> In x l.
Proof.
  intros H. rewrite <- (firstn_skipn n l), H. apply in_or_app. right. now left.
Qed.

Lemma findEOCD_position_bounds (endData : list byte) :
  findEOCD endData = -1
  \/ (0 <= findEOCD endData <= len endData - 22
      /\ (len (skipn (Z.to_nat (findEOCD endData)) endData) <? 22) = false).
Proof.
  destruct (findEOCD_cases endData) as [[Hnone _] | [p [Hp [Hscan _]]]].
  - now left.
  - right. rewrite Hscan, Nat2Z.id. split; [lia |].
    apply Z.ltb_ge. unfold len in *. rewrite length_skipn. lia.
Qed.

(** X4: the position the scan returns is -1 or lies between 0 and the
    length of the window minus 22, so that at least 22 bytes follow it: the
    test for a record that is too short can never succeed.  A window of
    fewer than 22 bytes gives -1, whatever it holds. *)
Theorem findEOCD_leaves_22_bytes (endData : list byte) :
  (len endData < 22 -> findEOCD endData = -1)
  /\ (findEOCD endData = -1
      \/ (0 <= findEOCD endData <= len endData - 22
          /\ (len (skipn (Z.to_nat (findEOCD endData)) endData) <? 22) = false)).
Proof.
  split.
  - intros Hshort. unfold findEOCD. cbn zeta.
    replace (len endData - 22 <? 0) with true by (symmetry; apply Z.ltb_lt; lia).
    reflexivity.
  - apply findEOCD_position_bounds.
Qed.

Lemma findEOCD_leaves_22_bytes_witness :
  findEOCD [x50; x4b; x05; x06; x00] = -1.
Proof.
  destruct (findEOCD_leaves_22_bytes [x50; x4b; x05; x06; x00]) as [Hshort _].
  apply Hshort. unfold len; cbn; lia.
Defined.

(** X5: when the window holds the signature followed by at least 18 bytes
    none of which is the byte 0x50, the scan returns the position of that
    signature, whatever precedes it. *)
Theorem findEOCD_finds_last_record (before rest : list byte) :
  (18 <= List.length rest)%nat -> ~ In x50 rest ->
  findEOCD (before ++ eocdSignature ++ rest) = Z.of_nat (List.length before).
Proof.
  intros Hlen HnoP.
  set (window := before ++ eocdSignature ++ rest).
  assert (Hwin : len window = Z.of_nat (List.length before) + 4 + len rest).
  { unfold window, len. rewrite !length_app. cbn [List.length eocdSignature]. lia. }
  pose proof (sigAt_at_signature before rest) as Hsig. fold window in Hsig.
  destruct (findEOCD_cases window)
    as [[_ Hall] | [p [Hp [Hscan [Hsigp Hafter]]]]].
  - rewrite Hall in Hsig by (unfold len in *; lia). discriminate.
  - rewrite Hscan. f_equal.
    destruct (Nat.lt_trichotomy p (List.length before)) as [Hlt | [Heq | Hgt]].
    + rewrite (Hafter _ Hlt) in Hsig by (unfold len in *; lia). discriminate.
    + exact Heq.
    + exfalso. apply sigAt_slice in Hsigp. unfold window in Hsigp.
      rewrite skipn_app, skipn_all2 in Hsigp by lia. cbn [app] in Hsigp.
      remember (p - List.length before)%nat as k eqn:Hk.
      destruct k as [| [| [| [| k]]]]; [lia | discriminate.. |].
      cbn [skipn eocdSignature app] in Hsigp.
      destruct (skipn k rest) as [| b t] eqn:Hskip; [discriminate |].
      cbn in Hsigp. injection Hsigp as -> _.
      apply HnoP. exact (skipn_head_In _ _ _ _ Hskip).
Qed.

Lemma findEOCD_finds_last_record_witness :
  findEOCD ([x50; x4b; x01] ++ eocdSignature ++ repeat x00 18) = 3.
Proof.
  apply (findEOCD_finds_last_record [x50; x4b; x01] (repeat x00 18)).
  - cbn. lia.
  - cbn. intros H. repeat (destruct H as [H | H]; [discriminate |]). exact H.
Defined.

(** ** Opening an archive on a server that honours byte ranges *)

Section OpenOnHonestServer.
Variable sep : ascii.
Variable content : list byte.
Variable table : list (ZipFile * list byte).

Local Notation "'host'" := (hostWith sep (honestServer content) table).

(** [NewRemoteZipFile] on a server that honours byte ranges. *)
Lemma NewRemoteZipFile_honest (url : string) (w : World) :
  0 < len content < 2 ^ 63 ->
  @NewRemoteZipFile host url w
  = if findEOCD (skipn (List.length content
                        - Nat.min (List.length content) (Z.to_nat 65536)) content) <? 0
    then (Err (ErrWrap "failed to read central directory" ErrNoEOCD),
          mkWorld (sent w ++ [headRequest url;
                              rangeRequest url (Z.max 0 (len content - 65536))
                                           (len content)])
                  1 (stdout w) (stderr w) (disk w))
    else (Ok (mkRemoteZipFile url (len content) (map fst table)
                              (Some (mkZipReader (map fst table)))),
          mkWorld (sent w ++ [headRequest url;
                              rangeRequest url (Z.max 0 (len content - 65536))
                                           (len content)])
                  1 (stdout w) (stderr w) (disk w)).
Proof.
  intros Hsize.
  set (rzf := mkRemoteZipFile url (len content) [] None).
  assert (Hstart : tailStart rzf = Z.max 0 (len content - 65536)).
  { destruct (tailStart_cases rzf Hsize) as [Hsmall Hlarge]. cbn [size rzf] in *.
    destruct (Z.le_gt_cases (len content) 65536) as [H | H].
    - rewrite (Hsmall H). lia.
    - rewrite (Hlarge ltac:(lia)). lia. }
  rewrite (@NewRemoteZipFile_probe_ok host url w
             (mkResponse 200 [("Accept-Ranges", "bytes")]%string (len content) [] None)
             eq_refl eq_refl eq_refl eq_refl (proj1 Hsize)).
  cbn [ContentLength]. fold rzf. unfold wrapErr.
  set (w1 := snd (@http_Do host (headRequest url) w)).
  assert (Hget : @getRange host rzf (tailStart rzf) (size rzf) w1
                 = (Ok (skipn (List.length content
                               - Nat.min (List.length content) (Z.to_nat 65536))
                              content),
                    mkWorld (sent w ++ [headRequest url;
                                        rangeRequest url (Z.max 0 (len content - 65536))
                                                     (len content)])
                            1 (stdout w) (stderr w) (disk w))).
  { rewrite (getRange_honest sep content table rzf (tailStart rzf) (size rzf) w1)
      by (rewrite ?Hstart; cbn [size rzf]; lia).
    rewrite Hstart. cbn [size rzf URL w1 snd http_Do sent stdout stderr disk].
    rewrite <- app_assoc. cbn [app]. f_equal. f_equal.
    unfold slice, len in *. rewrite Nat2Z.id, Nat.min_id.
    replace (Z.to_nat (Z.max 0 (Z.of_nat (List.length content) - 65536)))
      with (List.length content - Nat.min (List.length content) (Z.to_nat 65536))%nat
      by lia.
    apply firstn_all2. rewrite length_skipn. lia. }
  rewrite (@readCentralDirectory_unfold host rzf w1 _ _ Hget).
  destruct (findEOCD_position_bounds
              (skipn (List.length content
                      - Nat.min (List.length content) (Z.to_nat 65536)) content))
    as [Hnone | [Hpos Hlong]].
  - rewrite Hnone. reflexivity.
  - replace (findEOCD _ <? 0) with false by (symmetry; apply Z.ltb_ge; lia).
    rewrite Hlong. reflexivity.
Qed.


End OpenOnHonestServer.


Lemma In_skipn {A} (l : list A) (n : nat) (x : A) : In x (skipn n l) -> In x l.
Proof.
  intros H. rewrite <- (firstn_skipn n l). apply in_or_app. now right.
Qed.

(** X22: an archive whose comment has more than 65514 bytes is not opened
    from a server that honours byte ranges when the byte 0x50 occurs
    neither in the comment nor after the first byte of the 22-byte record:
    the window of 65536 bytes starts after the signature, the scan finds
    nothing and [NewRemoteZipFile] fails with the error for a missing
    record. *)
Theorem NewRemoteZipFile_long_comment (sep : ascii)
    (table : list (ZipFile * list byte)) (url : string) (w : World)
    (before record comment : list byte) :
  List.length record = 22%nat ->
  65514 < len comment ->
  len (before ++ record ++ comment) < 2 ^ 63 ->
  ~ In x50 (tl record) -> ~ In x50 comment ->
  fst (@NewRemoteZipFile
         (hostWith sep (honestServer (before ++ record ++ comment)) table) url w)
  = Err (ErrWrap "failed to read central directory" ErrNoEOCD).
Proof.
  intros Hrecord Hcomment Hmax HnoR HnoC.
  assert (Hlen : List.length (before ++ record ++ comment)
                 = (List.length before + 22 + List.length comment)%nat)
    by (rewrite !length_app, Hrecord; lia).
  rewrite NewRemoteZipFile_honest by (unfold len in *; lia).
  rewrite findEOCD_without_P; [reflexivity |].
  apply forallb_forall. intros b Hb.
  destruct (Byte.eqb b x50) eqn:Heq; [| reflexivity].
  exfalso. apply Byte.byte_dec_bl in Heq. subst b.
  rewrite Hlen in Hb.
  destruct record as [| r0 rest]; [discriminate |]. cbn [tl] in HnoR.
  change (before ++ (r0 :: rest) ++ comment)
    with (before ++ [r0] ++ (rest ++ comment)) in Hb.
  rewrite app_assoc, skipn_app, skipn_all2 in Hb
    by (rewrite length_app; cbn [List.length]; unfold len in *; lia).
  cbn [app] in Hb. apply In_skipn, in_app_or in Hb.
  destruct Hb as [Hb | Hb]; [exact (HnoR Hb) | exact (HnoC Hb)].
Qed.

(** ** The handle and the errors of NewRemoteZipFile *)

Section OpenProperties.
Context {P : Platform}.

(** What [readCentralDirectory] returns when it succeeds. *)
Lemma readCentralDirectory_ok (rzf rzf' : RemoteZipFile) (w w' : World) :
  readCentralDirectory rzf w = (Ok rzf', w') ->
  exists zipReader : ZipReader,
    rzf' = mkRemoteZipFile (URL rzf) (size rzf) (File zipReader) (Some zipReader).
Proof.
  unfold readCentralDirectory. cbn zeta. unfold bind at 1.
  destruct (getRange rzf _ (size rzf) w) as [[endData | e] w1]; [| discriminate].
  destruct (findEOCD endData <? 0); [discriminate |].
  destruct (len _ <? 22); [discriminate |].
  unfold bind, ret.
  destruct (zip_NewReader (ReadAt rzf) (size rzf) w1) as [[zipReader | e] w2];
    [| discriminate].
  intros H. injection H as <- _. now exists zipReader.
Qed.

(** X7: a handle returned by [NewRemoteZipFile] holds the URL it was asked
    for, a positive size, which is the content length of the probe, and the
    reader of the zip package together with its entries; the probe was
    answered with status 200 and [Accept-Ranges: bytes]. *)
Theorem NewRemoteZipFile_handle (url : string) (w w' : World) (rzf : RemoteZipFile) :
  NewRemoteZipFile url w = (Ok rzf, w') ->
  URL rzf = url
  /\ 0 < size rzf
  /\ (exists zipReader, reader rzf = Some zipReader /\ files rzf = File zipReader
                        /\ List_ rzf = map Name (File zipReader))
  /\ (exists resp, roundTrip w (headRequest url) = Ok resp
                   /\ StatusCode resp = 200
                   /\ headerGet (Header resp) "Accept-Ranges" = "bytes"%string
                   /\ ContentLength resp = size rzf).
Proof.
  unfold NewRemoteZipFile, bind at 1, wrapErr at 1, http_Head, bind at 1,
    http_NewRequest.
  destruct (urlError url) as [e |]; [discriminate |].
  unfold ret. cbn [http_Do].
  change (mkRequest "HEAD" url []) with (headRequest url).
  destruct (roundTrip w (headRequest url)) as [resp | e] eqn:Hprobe; [| discriminate].
  destruct (StatusCode resp =? 200) eqn:Hst; cbn [negb]; [| discriminate].
  destruct (String.eqb (headerGet (Header resp) "Accept-Ranges") "bytes") eqn:Hacc;
    cbn [negb]; [| discriminate].
  cbn [size]. destruct (ContentLength resp <=? 0) eqn:Hlen; [discriminate |].
  unfold wrapErr.
  destruct (readCentralDirectory _ _) as [[rzf' | e] w1] eqn:Hread; [| discriminate].
  intros H. injection H as <- <-.
  destruct (readCentralDirectory_ok _ _ _ _ Hread) as [zipReader ->].
  cbn [URL size reader files]. apply Z.leb_gt in Hlen.
  repeat split; try assumption.
  - exists zipReader. repeat split.
  - exists resp. apply Z.eqb_eq in Hst. apply String.eqb_eq in Hacc.
    repeat split; assumption.
Qed.

(** X8: the errors of [NewRemoteZipFile].  An error of the probe or of
    reading the central directory is returned wrapped in its context; the
    others are the error for a status other than 200, for a server without
    range support and for a size that is not positive.  With a URL that
    does not parse no request is made. *)
Theorem NewRemoteZipFile_errors (url : string) (w : World) (e : Error) :
  fst (NewRemoteZipFile url w) = Err e ->
  ((exists cause, e = ErrWrap "failed to get file info" cause)
   \/ (exists code, code <> 200 /\ e = ErrUnexpectedStatus code)
   \/ e = ErrNoRangeSupport
   \/ e = ErrNoFileSize
   \/ (exists cause, e = ErrWrap "failed to read central directory" cause))
  /\ (forall cause, urlError url = Some cause ->
        e = ErrWrap "failed to get file info" cause
        /\ snd (NewRemoteZipFile url w) = w).
Proof.
  unfold NewRemoteZipFile, bind at 1, wrapErr at 1, http_Head, bind at 1,
    http_NewRequest.
  destruct (urlError url) as [cause |].
  - cbn. intros H. injection H as <-. split.
    + left. now exists cause.
    + intros c Hc. injection Hc as <-. split; reflexivity.
  - unfold ret. cbn [http_Do].
    destruct (roundTrip w _) as [resp | cause].
    + intros H. split; [| discriminate].
      destruct (StatusCode resp =? 200) eqn:Hst; cbn [negb] in H.
      * destruct (String.eqb (headerGet (Header resp) "Accept-Ranges") "bytes");
          cbn [negb] in H.
        -- cbn [size] in H. destruct (ContentLength resp <=? 0).
           ++ cbn in H. injection H as <-. auto.
           ++ unfold wrapErr in H.
              destruct (readCentralDirectory _ _) as [[rzf | cause] w1];
                cbn in H; [discriminate |].
              injection H as <-. do 4 right. now exists cause.
        -- cbn in H. injection H as <-. auto.
      * cbn in H. injection H as <-. right. left.
        exists (StatusCode resp). apply Z.eqb_neq in Hst. auto.
    + cbn. intros H. injection H as <-. split; [| discriminate].
      left. now exists cause.
Qed.

End OpenProperties.

Lemma NewRemoteZipFile_handle_witness :
  fst (@NewRemoteZipFile craftedHost "http://host/crafted.zip" emptyWorld)
  = Ok (mkRemoteZipFile "http://host/crafted.zip" 48 (map fst threeEntries)
                        (Some (mkZipReader (map fst threeEntries))))
  /\ 0 < size (mkRemoteZipFile "http://host/crafted.zip" 48 (map fst threeEntries)
                               (Some (mkZipReader (map fst threeEntries)))).
Proof.
  destruct (@NewRemoteZipFile_handle craftedHost "http://host/crafted.zip" emptyWorld
              (snd (@NewRemoteZipFile craftedHost "http://host/crafted.zip" emptyWorld))
              (mkRemoteZipFile "http://host/crafted.zip" 48 (map fst threeEntries)
                               (Some (mkZipReader (map fst threeEntries))))
              eq_refl) as [_ [Hsize _]].
  split; [reflexivity | exact Hsize].
Defined.

Lemma NewRemoteZipFile_errors_witness :
  fst (@NewRemoteZipFile honestHost "http://host/six.zip" emptyWorld)
  = Err (ErrWrap "failed to read central directory" ErrNoEOCD)
  /\ exists cause, ErrWrap "failed to read central directory" ErrNoEOCD
                   = ErrWrap "failed to read central directory" cause.
Proof.
  destruct (@NewRemoteZipFile_errors honestHost "http://host/six.zip" emptyWorld
              (ErrWrap "failed to read central directory" ErrNoEOCD) eq_refl)
    as [[H | [H | [H | [H | H]]]] _].
  - destruct H as [c H]. discriminate.
  - destruct H as [c [_ H]]. discriminate.
  - discriminate.
  - discriminate.
  - split; [reflexivity | exact H].
Defined.

(** ** Entries by name, and patterns after normalisation *)

Section LookupProperties.
Context {P : Platform}.

Lemma openFirst_missing (fs : list ZipFile) (name : string) (w : World) :
  ~ In name (map Name fs) -> openFirst fs name w = (Err (ErrFileNotFound name), w).
Proof.
  induction fs as [| f t IH]; cbn; [reflexivity |].
  intros Hnot. destruct (String.eqb_spec (Name f) name) as [Heq | Hne].
  - exfalso. apply Hnot. now left.
  - apply IH. intros Hin. apply Hnot. now right.
Qed.

Lemma openFirst_listed (fs : list ZipFile) (name : string) (w : World) :
  In name (map Name fs) ->
  exists before f after,
    fs = before ++ f :: after
    /\ Name f = name
    /\ ~ In name (map Name before)
    /\ openFirst fs name w = zipFile_Open f w.
Proof.
  induction fs as [| g t IH]; cbn; [tauto |].
  intros Hin. destruct (String.eqb_spec (Name g) name) as [Heq | Hne].
  - exists [], g, t. repeat split; auto.
  - destruct Hin as [Hg | Ht]; [contradiction |].
    destruct (IH Ht) as [before [f [after [-> [Hname [Hnot Hopen]]]]]].
    exists (g :: before), f, after. repeat split; auto.
    cbn. intros [H | H]; [contradiction | exact (Hnot H)].
Qed.

(** X9: [Open] and [Extract] follow [List].  A name that [List] does not
    return fails with the error for a file that is not found, and nothing
    happens; a name that it returns is opened through the zip package, at
    the first entry of that name when several entries share it. *)
Theorem Open_follows_List (rzf : RemoteZipFile) (name : string) (w : World) :
  (~ In name (List_ rzf) ->
   Open rzf name w = (Err (ErrFileNotFound name), w)
   /\ Extract rzf name w = (Err (ErrFileNotFound name), w))
  /\ (In name (List_ rzf) ->
      exists before f after,
        Files rzf = before ++ f :: after
        /\ Name f = name
        /\ ~ In name (map Name before)
        /\ Open rzf name w = zipFile_Open f w
        /\ Extract rzf name w = (rc <- zipFile_Open f ;; io_ReadAll rc) w).
Proof.
  unfold List_, Files, Extract, Open. split.
  - intros Hnot. unfold bind. rewrite (openFirst_missing _ _ _ Hnot). split; reflexivity.
  - intros Hin.
    destruct (openFirst_listed _ _ w Hin) as [before [f [after [Hfs [Hname [Hnot Hopen]]]]]].
    exists before, f, after. repeat split; auto.
    unfold bind. rewrite Hopen. reflexivity.
Qed.

End LookupProperties.

Lemma Open_follows_List_witness :
  @Extract threeHost threeHandle "b.txt" emptyWorld
  = (Err (ErrFileNotFound "b.txt"), emptyWorld)
  /\ exists f, Name f = "dir/b.txt"%string
               /\ @Open threeHost threeHandle "dir/b.txt" emptyWorld
                  = @zipFile_Open threeHost f emptyWorld.
Proof.
  destruct (@Open_follows_List threeHost threeHandle "b.txt" emptyWorld) as [Hmissing _].
  destruct (@Open_follows_List threeHost threeHandle "dir/b.txt" emptyWorld)
    as [_ Hlisted].
  split.
  - apply Hmissing. cbn. intros [H | [H | [H | []]]]; discriminate.
  - destruct Hlisted as [before [f [after [_ [Hname [_ [Hopen _]]]]]]].
    + cbn. right. left. reflexivity.
    + exists f. split; assumption.
Defined.

Section MatchProperties.
Context {P : Platform}.

Lemma filepath_ToSlash_idempotent (path : string) :
  filepath_ToSlash (filepath_ToSlash path) = filepath_ToSlash path.
Proof.
  unfold filepath_ToSlash.
  destruct (Ascii.eqb PathSeparator "/") eqn:Hsep; [reflexivity |].
  induction path as [| a t IH]; cbn; [reflexivity |].
  rewrite IH. f_equal.
  destruct (Ascii.eqb a PathSeparator) eqn:Ha; [| now rewrite Ha].
  rewrite Ascii.eqb_sym, Hsep. reflexivity.
Qed.

(** X10: [matchPattern] sees pattern and name through [filepath.ToSlash]
    only.  The second test of [extractFiles], on the name after
    [filepath.FromSlash], therefore never adds a match to the first, and
    matching already normalised strings gives the same result. *)
Theorem matchPattern_normalises (pattern name : string) :
  matchPattern pattern name || matchPattern pattern (filepath_FromSlash name)
  = matchPattern pattern name
  /\ matchPattern (filepath_ToSlash pattern) (filepath_ToSlash name)
     = matchPattern pattern name
  /\ (filepath_ToSlash pattern = filepath_ToSlash name ->
      matchPattern pattern name = true).
Proof.
  split; [| split].
  - rewrite matchPattern_FromSlash. apply orb_diag.
  - unfold matchPattern. rewrite !filepath_ToSlash_idempotent. reflexivity.
  - intros H. unfold matchPattern. cbn zeta. rewrite H, String.eqb_refl. reflexivity.
Qed.

End MatchProperties.

Lemma matchPattern_normalises_witness :
  @matchPattern windowsHost "dir\*.txt" "dir/b.txt" = true
  /\ @matchPattern windowsHost "a\b*c" "a/b*c" = true.
Proof.
  destruct (@matchPattern_normalises windowsHost "dir\*.txt" "dir/b.txt")
    as [_ [Hnorm _]].
  destruct (@matchPattern_normalises windowsHost "a\b*c" "a/b*c") as [_ [_ Hsame]].
  split.
  - rewrite <- Hnorm. reflexivity.
  - apply Hsame. reflexivity.
Defined.

(** ** The loops of extractFiles and of main *)

Section ExtractProperties.
Context {P : Platform}.

(** The loop of [extractFiles] over entries that the pattern does not match
    or that are directories: only the flag changes. *)
Lemma extractLoop_skips (rzf : RemoteZipFile) (pattern : string) (rs ws : bool)
    (fs : list ZipFile) (matched : bool) (w : World) :
  (forall f, In f fs -> matchPattern pattern (Name f) = true -> IsDir f = true) ->
  extractLoop rzf pattern rs ws fs matched w
  = (Ok (matched || existsb (fun f => matchPattern pattern (Name f)) fs), w).
Proof.
  revert matched. induction fs as [| f t IH]; intros matched Hskip.
  - cbn. now rewrite orb_false_r.
  - cbn [extractLoop existsb]. rewrite matchPattern_FromSlash, orb_diag.
    assert (Ht : forall g, In g t -> matchPattern pattern (Name g) = true ->
                           IsDir g = true)
      by (intros g Hg; apply Hskip; now right).
    destruct (matchPattern pattern (Name f)) eqn:Hm.
    + rewrite (Hskip f (or_introl eq_refl) Hm), (IH true Ht).
      cbn. now rewrite orb_true_r.
    + rewrite (IH matched Ht). reflexivity.
Qed.

Lemma extractLoop_app_skips (rzf : RemoteZipFile) (pattern : string) (rs ws : bool)
    (before rest : list ZipFile) (matched : bool) (w : World) :
  (forall f, In f before -> matchPattern pattern (Name f) = true -> IsDir f = true) ->
  extractLoop rzf pattern rs ws (before ++ rest) matched w
  = extractLoop rzf pattern rs ws rest
      (matched || existsb (fun f => matchPattern pattern (Name f)) before) w.
Proof.
  revert matched. induction before as [| f t IH]; intros matched Hskip.
  - cbn. now rewrite orb_false_r.
  - cbn [app extractLoop existsb]. rewrite matchPattern_FromSlash, orb_diag.
    assert (Ht : forall g, In g t -> matchPattern pattern (Name g) = true ->
                           IsDir g = true)
      by (intros g Hg; apply Hskip; now right).
    destruct (matchPattern pattern (Name f)) eqn:Hm.
    + rewrite (Hskip f (or_introl eq_refl) Hm), (IH true Ht).
      cbn. now rewrite orb_true_r.
    + rewrite (IH matched Ht). reflexivity.
Qed.

(** The loop ends with the flag, or with an error wrapped in the context of
    the step that failed, and then the pattern matched an entry. *)
Lemma extractLoop_result (rzf : RemoteZipFile) (pattern : string) (rs ws : bool)
    (fs : list ZipFile) (matched : bool) (w : World) :
  match fst (extractLoop rzf pattern rs ws fs matched w) with
  | Ok flag => flag = matched || existsb (fun f => matchPattern pattern (Name f)) fs
  | Err e => (exists context cause, e = ErrWrap context cause)
             /\ existsb (fun f => matchPattern pattern (Name f)) fs = true
  end.
Proof.
  revert matched w. induction fs as [| f t IH]; intros matched w.
  - cbn. now rewrite orb_false_r.
  - cbn [extractLoop existsb]. rewrite matchPattern_FromSlash, orb_diag.
    assert (Hnext : forall w1,
      match fst (extractLoop rzf pattern rs ws t true w1) with
      | Ok flag => flag = matched
                          || (true || existsb (fun f => matchPattern pattern (Name f)) t)
      | Err e => (exists context cause, e = ErrWrap context cause)
                 /\ true || existsb (fun f => matchPattern pattern (Name f)) t = true
      end).
    { intros w1. specialize (IH true w1).
      destruct (fst (extractLoop rzf pattern rs ws t true w1)) as [flag | e].
      - rewrite IH. cbn. now rewrite orb_true_r.
      - split; [exact (proj1 IH) | reflexivity]. }
    assert (Hwrap : forall context cause,
      (exists c0 e0, ErrWrap context cause = ErrWrap c0 e0)
      /\ true || existsb (fun f => matchPattern pattern (Name f)) t = true)
      by (intros c0 e0; split; [now exists c0, e0 | reflexivity]).
    destruct (matchPattern pattern (Name f)).
    + destruct (IsDir f); [apply Hnext |].
      destruct ws.
      * unfold bind at 1, wrapErr.
        destruct (Extract rzf (Name f) w) as [[data | e] w1].
        -- unfold bind at 1, write_stdout. apply Hnext.
        -- apply Hwrap.
      * unfold bind at 1.
        destruct (negb (String.eqb _ ".") && negb (String.eqb _ "")).
        -- unfold wrapErr at 1.
           destruct (os_MkdirAll _ w) as [[[] | e] w1]; [| apply Hwrap].
           unfold bind at 1, print_stderr, write_stderr.
           unfold bind at 1, wrapErr at 1.
           destruct (Extract rzf (Name f) _) as [[data | e] w2]; [| apply Hwrap].
           unfold bind at 1, wrapErr.
           destruct (os_WriteFile _ data w2) as [[[] | e] w3];
             [apply Hnext | apply Hwrap].
        -- unfold ret at 1.
           unfold bind at 1, print_stderr, write_stderr.
           unfold bind at 1, wrapErr at 1.
           destruct (Extract rzf (Name f) _) as [[data | e] w2]; [| apply Hwrap].
           unfold bind at 1, wrapErr.
           destruct (os_WriteFile _ data w2) as [[[] | e] w3];
             [apply Hnext | apply Hwrap].
    + cbn [orb]. apply IH.
Qed.

(** X11: a pattern that matches entries, all of them directories, is a
    success that does nothing: no request, no output, no file. *)
Theorem extractFiles_directories_only (rzf : RemoteZipFile) (pattern : string)
    (rs ws : bool) (w : World) :
  (exists f, In f (Files rzf) /\ matchPattern pattern (Name f) = true) ->
  (forall f, In f (Files rzf) -> matchPattern pattern (Name f) = true ->
             IsDir f = true) ->
  extractFiles rzf pattern rs ws w = (Ok tt, w).
Proof.
  intros [f [Hin Hm]] Hdirs. unfold extractFiles, bind.
  rewrite (extractLoop_skips _ _ _ _ _ _ _ Hdirs). cbn [orb].
  replace (existsb _ (Files rzf)) with true; [reflexivity |].
  symmetry. apply existsb_exists. now exists f.
Qed.

(** X12: in the mode that writes to the standard output, when the first
    entry to extract cannot be extracted, [extractFiles] returns that error
    in the context of the entry and goes no further: the world is the one
    the failed extraction left. *)
Theorem extractFiles_stops_at_failed_extraction (rzf : RemoteZipFile)
    (pattern : string) (rs : bool) (w w' : World)
    (before after : list ZipFile) (f : ZipFile) (e : Error) :
  Files rzf = before ++ f :: after ->
  (forall g, In g before -> matchPattern pattern (Name g) = true -> IsDir g = true) ->
  matchPattern pattern (Name f) = true ->
  IsDir f = false ->
  Extract rzf (Name f) w = (Err e, w') ->
  extractFiles rzf pattern rs true w
  = (Err (ErrWrap ("failed to extract " ++ Name f) e), w').
Proof.
  intros Hfiles Hskip Hm Hdir Hfail. unfold extractFiles. unfold bind at 1.
  rewrite Hfiles, (extractLoop_app_skips _ _ _ _ _ _ _ _ Hskip).
  cbn [extractLoop]. rewrite matchPattern_FromSlash, orb_diag, Hm, Hdir.
  unfold bind at 1, wrapErr. rewrite Hfail. reflexivity.
Qed.

(** X13: [extractFiles] returns the error for a pattern that matched
    nothing exactly when no entry name matches the pattern, and then it has
    done nothing; when it succeeds, an entry name matches. *)
Theorem extractFiles_no_match_iff (rzf : RemoteZipFile) (pattern : string)
    (rs ws : bool) (w : World) :
  ((forall f, In f (Files rzf) -> matchPattern pattern (Name f) = false)
   <-> fst (extractFiles rzf pattern rs ws w) = Err (ErrNoFilesMatched pattern))
  /\ (fst (extractFiles rzf pattern rs ws w) = Err (ErrNoFilesMatched pattern) ->
      snd (extractFiles rzf pattern rs ws w) = w)
  /\ (fst (extractFiles rzf pattern rs ws w) = Ok tt ->
      exists f, In f (Files rzf) /\ matchPattern pattern (Name f) = true).
Proof.
  assert (Hback : fst (extractFiles rzf pattern rs ws w) = Err (ErrNoFilesMatched pattern)
                  -> forall f, In f (Files rzf) -> matchPattern pattern (Name f) = false).
  { unfold extractFiles, bind.
    pose proof (extractLoop_result rzf pattern rs ws (Files rzf) false w) as Hres.
    destruct (extractLoop rzf pattern rs ws (Files rzf) false w) as [[flag | e] w'];
      cbn [fst] in Hres |- *.
    2: { destruct Hres as [[c0 [e0 ->]] _]. discriminate. }
    subst flag. cbn [orb].
    destruct (existsb _ (Files rzf)) eqn:Hex; [discriminate |].
    intros _ f Hin.
    destruct (matchPattern pattern (Name f)) eqn:Hm; [| reflexivity].
    assert (Htrue : existsb (fun f => matchPattern pattern (Name f)) (Files rzf) = true)
      by (apply existsb_exists; now exists f).
    congruence. }
  split; [split |]; [| exact Hback | split].
  - intros Hno. now rewrite (extractFiles_unmatched _ _ _ _ _ Hno).
  - intros Herr. now rewrite (extractFiles_unmatched _ _ _ _ _ (Hback Herr)).
  - unfold extractFiles, bind.
    pose proof (extractLoop_result rzf pattern rs ws (Files rzf) false w) as Hres.
    destruct (extractLoop rzf pattern rs ws (Files rzf) false w) as [[flag | e] w'];
      cbn [fst] in Hres |- *; [| discriminate].
    subst flag. cbn [orb].
    destruct (existsb _ (Files rzf)) eqn:Hex; [| discriminate].
    intros _. apply existsb_exists in Hex. exact Hex.
Qed.

Lemma extractAll_ok (rzf : RemoteZipFile) (patterns : list string) (rs ws : bool)
    (w : World) :
  fst (extractAll rzf patterns rs ws w) = Ok tt.
Proof.
  revert w. induction patterns as [| p rest IH]; intros w; [reflexivity |].
  cbn [extractAll]. unfold bind at 1.
  destruct (extractFiles rzf p rs ws w) as [[[] | e] w1]; apply IH.
Qed.

(** X14: the loop of [main] over the patterns never stops at an error: it
    ends without one, a failed pattern costs a message on the standard
    error and the loop goes on, and a list of patterns is worked off as its
    first part followed by its second. *)
Theorem extractAll_goes_on (rzf : RemoteZipFile) (first second : list string)
    (rs ws : bool) (w : World) :
  fst (extractAll rzf (first ++ second) rs ws w) = Ok tt
  /\ extractAll rzf (first ++ second) rs ws w
     = extractAll rzf second rs ws (snd (extractAll rzf first rs ws w))
  /\ (forall pattern e w',
        extractFiles rzf pattern rs ws w = (Err e, w') ->
        extractAll rzf (pattern :: second) rs ws w
        = extractAll rzf second rs ws
            (mkWorld (sent w') (idle w') (stdout w')
                     (stderr w' ++ bytesOf ("Error extracting " ++ pattern ++ ": "
                                            ++ errorString e ++ nl))
                     (disk w'))).
Proof.
  split; [apply extractAll_ok | split].
  - revert w. induction first as [| p rest IH]; intros w; [reflexivity |].
    cbn [app extractAll]. unfold bind at 1 2.
    destruct (extractFiles rzf p rs ws w) as [[[] | e] w1]; apply IH.
  - intros pattern e w' Hfail. cbn [extractAll]. unfold bind at 1.
    rewrite Hfail. reflexivity.
Qed.

End ExtractProperties.

(** ** What the loops write to the standard output *)

Lemma extractFiles_directories_only_witness :
  @extractFiles dirHost dirHandle "docs/" false true emptyWorld = (Ok tt, emptyWorld).
Proof.
  apply (@extractFiles_directories_only dirHost dirHandle "docs/" false true emptyWorld).
  - exists (mkZipFile "docs/" true 0 0 EmptyString). split; [now left | reflexivity].
  - intros f [<- | [<- | []]]; [reflexivity | discriminate].
Defined.

Lemma extractFiles_stops_at_failed_extraction_witness :
  @extractFiles honestHost lostHandle "*.txt" false true emptyWorld
  = (Err (ErrWrap "failed to extract a.txt" (ErrLib "zip: not a valid zip file")),
     emptyWorld).
Proof.
  apply (@extractFiles_stops_at_failed_extraction honestHost lostHandle "*.txt" false
           emptyWorld emptyWorld [] [] (fileNamed "a.txt")
           (ErrLib "zip: not a valid zip file") eq_refl).
  - intros g [].
  - reflexivity.
  - reflexivity.
  - reflexivity.
Defined.

Lemma extractFiles_no_match_iff_witness :
  fst (@extractFiles threeHost threeHandle "*.pdf" false true emptyWorld)
  = Err (ErrNoFilesMatched "*.pdf")
  /\ exists f, In f (Files threeHandle) /\ @matchPattern threeHost "*.bin" (Name f) = true.
Proof.
  destruct (@extractFiles_no_match_iff threeHost threeHandle "*.pdf" false true emptyWorld)
    as [[Hnone _] _].
  destruct (@extractFiles_no_match_iff threeHost threeHandle "*.bin" false true emptyWorld)
    as [_ [_ Hsome]].
  split.
  - apply Hnone. intros f [<- | [<- | [<- | []]]]; reflexivity.
  - apply Hsome. reflexivity.
Defined.

Lemma extractAll_goes_on_witness :
  stdout (snd (@extractAll threeHost threeHandle ["zzz"; "c.bin"]%string false true
                 emptyWorld)) = bytesOf "C"
  /\ stderr (snd (@extractAll threeHost threeHandle ["zzz"; "c.bin"]%string false true
                    emptyWorld))
     = bytesOf ("Error extracting zzz: no files matched pattern: zzz" ++ nl).
Proof.
  destruct (@extractAll_goes_on threeHost threeHandle [] ["c.bin"]%string false true
              emptyWorld) as [_ [_ Hfail]].
  rewrite (Hfail "zzz"%string (ErrNoFilesMatched "zzz") emptyWorld eq_refl).
  split; reflexivity.
Defined.

(** X15: with the zip package of [hostWith], for a handle on the archive,
    the loop of [main] in the mode that writes to the standard output
    appends, pattern after pattern in the order of the arguments, the
    selected entries of the archive in the order of the archive; an entry
    that two patterns select is written twice. *)
Theorem extractAll_writes_pattern_by_pattern (sep : ascii)
    (server : World -> Request -> Result Response)
    (table : list (ZipFile * list byte)) (rzf : RemoteZipFile)
    (patterns : list string) (rs : bool) (w : World) :
  files rzf = map fst table ->
  stdout (snd (@extractAll (hostWith sep server table) rzf patterns rs true w))
  = stdout w
    ++ flat_map (fun pattern =>
                   flat_map (contentIn table)
                            (filter (fun f => @matchPattern (hostWith sep server table)
                                                pattern (Name f)
                                              && negb (IsDir f))
                                    (map fst table)))
                patterns.
Proof.
  intros Hfiles. apply (extractAll_stdout sep server table rzf Hfiles).
Qed.

Lemma extractAll_writes_pattern_by_pattern_witness :
  stdout (snd (@extractAll threeHost threeHandle ["c.bin"; "*.txt"; "c.bin"]%string false
                 true emptyWorld))
  = bytesOf "C" ++ bytesOf "AAA" ++ bytesOf "BB" ++ bytesOf "C".
Proof.
  unfold threeHost.
  rewrite (extractAll_writes_pattern_by_pattern "/" (honestServer sixBytes) threeEntries
             threeHandle ["c.bin"; "*.txt"; "c.bin"]%string false emptyWorld eq_refl).
  reflexivity.
Defined.

(** X16: with the zip package of [hostWith], one pattern writes the
    entries it selects in the order of the archive, each of them once. *)
Theorem extractFiles_writes_in_archive_order (sep : ascii)
    (server : World -> Request -> Result Response)
    (table : list (ZipFile * list byte)) (rzf : RemoteZipFile)
    (pattern : string) (rs : bool) (w : World) :
  files rzf = map fst table ->
  stdout (snd (@extractFiles (hostWith sep server table) rzf pattern rs true w))
  = stdout w ++ @archiveOrderOutput (hostWith sep server table) table [pattern].
Proof.
  intros Hfiles. rewrite (extractFiles_stdout sep server table rzf Hfiles).
  f_equal. unfold archiveOrderOutput. f_equal. apply filter_ext.
  intros f. cbn [existsb]. now rewrite orb_false_r.
Qed.

Lemma extractFiles_writes_in_archive_order_witness :
  stdout (snd (@extractFiles threeHost threeHandle "*.txt" false true emptyWorld))
  = bytesOf "AAA" ++ bytesOf "BB".
Proof.
  unfold threeHost.
  rewrite (extractFiles_writes_in_archive_order "/" (honestServer sixBytes) threeEntries
             threeHandle "*.txt" false emptyWorld eq_refl).
  reflexivity.
Defined.

(** ** main, listZipContents and min *)

Section MainProperties.
Context {P : Platform}.


(** X18: when [main] ends with status 0 the handle has been closed: no
    idle connection is left.  It lists the entries when the flag for
    listing is set or no pattern is given, and works off the patterns
    otherwise. *)
Theorem main_closes_handle (listFiles recreateStructure writeStdout : bool)
    (url : string) (filenames : list string) (w w1 : World) (rzf : RemoteZipFile) :
  NewRemoteZipFile url w = (Ok rzf, w1) ->
  idle (snd (main listFiles recreateStructure writeStdout (url :: filenames) w)) = 0%nat
  /\ (listFiles = true \/ filenames = [] ->
      main listFiles recreateStructure writeStdout (url :: filenames) w
      = (0, snd (Close rzf (snd (listZipContents rzf w1)))))
  /\ (listFiles = false -> filenames <> [] ->
      main listFiles recreateStructure writeStdout (url :: filenames) w
      = (0, snd (Close rzf (snd (extractAll rzf filenames recreateStructure
                                            writeStdout w1))))).
Proof.
  intros Hopen. unfold main. rewrite Hopen. split; [reflexivity |]. split.
  - intros [-> | ->]; [reflexivity |]. cbn. now rewrite orb_true_r.
  - intros -> Hne. destruct filenames as [| p rest]; [contradiction |].
    cbn [orb]. unfold len.
    replace (Z.of_nat (List.length (p :: rest)) =? 0) with false
      by (symmetry; apply Z.eqb_neq; cbn [List.length]; lia).
    reflexivity.
Qed.

(** X19: with the flag for listing, the patterns and the other two flags
    are not looked at: the run is the one with the URL alone. *)
Theorem main_list_ignores_patterns (recreateStructure writeStdout : bool)
    (listFiles' recreateStructure' writeStdout' : bool)
    (url : string) (filenames : list string) (w : World) :
  main true recreateStructure writeStdout (url :: filenames) w
  = main listFiles' recreateStructure' writeStdout' [url] w.
Proof.
  unfold main. destruct (NewRemoteZipFile url w) as [[rzf | e] w1];
    [| reflexivity].
  cbn. now rewrite orb_true_r.
Qed.

Lemma listLoop_output (fs : list ZipFile) (w : World) :
  listLoop fs w
  = (Ok tt, mkWorld (sent w) (idle w)
                    (stdout w ++ flat_map (fun f => bytesOf (listingLine f)) fs)
                    (stderr w) (disk w)).
Proof.
  revert w. induction fs as [| f t IH]; intros w.
  - cbn. rewrite app_nil_r. destruct w; reflexivity.
  - cbn [listLoop flat_map]. unfold bind, print_stdout, write_stdout.
    rewrite IH. cbn [sent idle stdout stderr disk].
    rewrite <- app_assoc. reflexivity.
Qed.

End MainProperties.

(** X20: [listZipContents] cannot fail and changes the standard output
    only: it appends the two lines of the head and then one line for each
    entry, in the order of the archive, with the size, the time and the
    name of the entry. *)
Theorem listZipContents_output (rzf : RemoteZipFile) (w : World) :
  listZipContents rzf w
  = (Ok tt, mkWorld (sent w) (idle w)
                    (stdout w ++ bytesOf listingHead
                     ++ flat_map (fun f => bytesOf (listingLine f)) (Files rzf))
                    (stderr w) (disk w)).
Proof.
  unfold listZipContents, bind, print_stdout, write_stdout.
  rewrite listLoop_output. cbn [sent idle stdout stderr disk].
  unfold listingHead, bytesOf.
  rewrite <- !app_assoc. reflexivity.
Qed.

(** X21: [min] returns the smaller of its arguments; [min(100, len(data))]
    is therefore a valid end for a slice of [data], which is all of [data]
    as long as it has at most 100 bytes, and its first 100 bytes beyond. *)
Theorem min_bounds_preview (data : list byte) :
  let n := min 100 (len data) in
  0 <= n <= len data
  /\ n <= 100
  /\ len (slice data 0 (Z.to_nat n)) = n
  /\ (len data <= 100 -> slice data 0 (Z.to_nat n) = data)
  /\ (forall a b : Z, min a b <= a /\ min a b <= b /\ (min a b = a \/ min a b = b)).
Proof.
  cbn zeta. unfold min, len, slice. cbn [skipn].
  assert (Hmin : forall a b : Z,
             (if a <? b then a else b) <= a /\ (if a <? b then a else b) <= b
             /\ ((if a <? b then a else b) = a \/ (if a <? b then a else b) = b)).
  { intros a b. destruct (Z.ltb_spec a b); lia. }
  destruct (Z.ltb_spec 100 (Z.of_nat (List.length data))) as [Hlt | Hge].
  - repeat split; try lia; try apply Hmin.
    rewrite length_firstn. lia.
  - rewrite Nat2Z.id, Nat.sub_0_r, firstn_all. repeat split; try lia; apply Hmin.
Qed.

Lemma min_bounds_preview_witness :
  slice sixBytes 0 (Z.to_nat (min 100 (len sixBytes))) = sixBytes.
Proof.
  destruct (min_bounds_preview sixBytes) as [_ [_ [_ [Hall _]]]].
  apply Hall. vm_compute. discriminate.
Defined.


Lemma main_closes_handle_witness :
  idle (snd (@main craftedHost false false true
               ["http://host/crafted.zip"; "c.bin"]%string emptyWorld)) = 0%nat
  /\ stdout (snd (@main craftedHost false false true
                    ["http://host/crafted.zip"; "c.bin"]%string emptyWorld))
     = bytesOf "C".
Proof.
  destruct (@main_closes_handle craftedHost false false true "http://host/crafted.zip"
              ["c.bin"]%string emptyWorld
              (snd (@NewRemoteZipFile craftedHost "http://host/crafted.zip" emptyWorld))
              (mkRemoteZipFile "http://host/crafted.zip" 48 (map fst threeEntries)
                               (Some (mkZipReader (map fst threeEntries))))
              eq_refl) as [Hidle [_ Hextract]].
  split; [exact Hidle |].
  rewrite (Hextract eq_refl) by discriminate. reflexivity.
Defined.

(** ** Writing files *)

Section FileMode.
Variable sep : ascii.
Variable table : list (ZipFile * list byte).
Variables base dir : string -> string.
Variable rzf : RemoteZipFile.
Hypothesis files_of_table : files rzf = map fst table.

Local Notation "'host'" := (fileHost sep table base dir).

Lemma Extract_on_fileHost (f : ZipFile) (w : World) :
  In f (files rzf) ->
  @Extract host rzf (Name f) w = (Ok (contentIn table f), w).
Proof.
  intros Hin. unfold Extract, Open, bind. rewrite (@openFirst_find host).
  destruct (find (fun g => String.eqb (Name g) (Name f)) (files rzf))
    as [g |] eqn:Hfind.
  - apply find_some in Hfind. destruct Hfind as [Hg Hname].
    apply String.eqb_eq in Hname. cbn.
    rewrite files_of_table in Hin.
    rewrite Hname, (lookupContent_of_entry table f Hin). reflexivity.
  - exfalso. apply (find_none _ _ Hfind) in Hin.
    rewrite String.eqb_refl in Hin. discriminate.
Qed.

Lemma extractLoop_files (pattern : string) (rs : bool) (fs : list ZipFile)
    (matched : bool) (w : World) :
  incl fs (files rzf) ->
  @extractLoop host rzf pattern rs false fs matched w
  = (Ok (matched || existsb (fun f => @matchPattern host pattern (Name f)) fs),
     mkWorld (sent w) (idle w) (stdout w)
             (stderr w
              ++ flat_map (fun f => bytesOf ("Extracting " ++ Name f ++ "..." ++ nl))
                          (filter (@selected host pattern) fs))
             (rev (map (fun f => (@outputPathOf host rs f, contentIn table f))
                       (filter (@selected host pattern) fs))
              ++ disk w)).
Proof.
  revert matched w. induction fs as [| f t IH]; intros matched w Hincl.
  - cbn. rewrite orb_false_r, app_nil_r. destruct w; reflexivity.
  - assert (Hf : In f (files rzf)) by (apply Hincl; now left).
    assert (Ht : incl t (files rzf)) by (intros g Hg; apply Hincl; now right).
    cbn [extractLoop existsb filter].
    change (@selected host pattern f)
      with (@matchPattern host pattern (Name f) && negb (IsDir f)).
    rewrite (@matchPattern_FromSlash host), orb_diag.
    destruct (@matchPattern host pattern (Name f)); cbn [andb orb].
    + destruct (IsDir f); cbn [negb].
      * rewrite (IH true w Ht), orb_true_r. reflexivity.
      * assert (Hmk : forall (c : string) (w0 : World),
                  (if negb (String.eqb (@filepath_Dir host
                              (if negb rs
                               then @filepath_Base host (@filepath_FromSlash host (Name f))
                               else @filepath_FromSlash host (Name f))) ".")
                      && negb (String.eqb (@filepath_Dir host
                              (if negb rs
                               then @filepath_Base host (@filepath_FromSlash host (Name f))
                               else @filepath_FromSlash host (Name f))) "")
                   then wrapErr c (@os_MkdirAll host (@filepath_Dir host
                              (if negb rs
                               then @filepath_Base host (@filepath_FromSlash host (Name f))
                               else @filepath_FromSlash host (Name f))))
                   else ret tt) w0 = (Ok tt, w0))
          by (intros c w0; destruct (negb _ && negb _); reflexivity).
        unfold bind at 1. rewrite Hmk.
        unfold bind at 1, print_stderr, write_stderr.
        unfold bind at 1, wrapErr at 1. rewrite (Extract_on_fileHost f _ Hf).
        unfold bind at 1, wrapErr. cbn [os_WriteFile fileHost].
        rewrite (IH _ _ Ht).
        cbn [sent idle stdout stderr disk flat_map map rev].
        rewrite orb_true_r, <- !app_assoc. reflexivity.
    + rewrite (IH matched w Ht). reflexivity.
Qed.

(** X23: on a host where every directory can be made and writing a file
    succeeds, [extractFiles] in the mode that writes files leaves the
    standard output alone, announces each selected entry on the standard
    error and writes the entries in the order of the archive, each to the
    base name of its path, or to its whole path when the structure is
    recreated; a later entry with the same target replaces an earlier
    one. *)
Theorem extractFiles_writes_files (pattern : string) (rs : bool) (w : World) :
  let chosen := filter (@selected host pattern) (map fst table) in
  stdout (snd (@extractFiles host rzf pattern rs false w)) = stdout w
  /\ stderr (snd (@extractFiles host rzf pattern rs false w))
     = stderr w
       ++ flat_map (fun f => bytesOf ("Extracting " ++ Name f ++ "..." ++ nl)) chosen
  /\ disk (snd (@extractFiles host rzf pattern rs false w))
     = rev (map (fun f => (if rs then @filepath_FromSlash host (Name f)
                           else base (@filepath_FromSlash host (Name f)),
                           contentIn table f)) chosen)
       ++ disk w.
Proof.
  cbn zeta. unfold extractFiles, bind, Files.
  rewrite (extractLoop_files pattern rs (files rzf) false w (incl_refl _)).
  rewrite files_of_table.
  assert (Hpath : forall f, @outputPathOf host rs f
                            = if rs then @filepath_FromSlash host (Name f)
                              else base (@filepath_FromSlash host (Name f)))
    by (intros f; unfold outputPathOf; destruct rs; reflexivity).
  destruct (negb _); unfold fail, ret; cbn [snd stdout stderr disk];
    (split; [reflexivity | split; [reflexivity |]]);
    do 2 f_equal; apply map_ext; intros f; now rewrite Hpath.
Qed.

End FileMode.

Lemma extractFiles_writes_files_witness :
  disk (snd (@extractFiles (fileHost "/" threeEntries lastComponent (fun _ => ".")%string)
               threeHandle "*.txt" false false emptyWorld))
  = [("b.txt", bytesOf "BB"); ("a.txt", bytesOf "AAA")]%string
  /\ disk (snd (@extractFiles (fileHost "/" threeEntries lastComponent (fun _ => ".")%string)
                  threeHandle "*.txt" true false emptyWorld))
     = [("dir/b.txt", bytesOf "BB"); ("a.txt", bytesOf "AAA")]%string.
Proof.
  destruct (extractFiles_writes_files "/" threeEntries lastComponent
              (fun _ => ".")%string threeHandle eq_refl "*.txt" false emptyWorld)
    as [_ [_ Hflat]].
  destruct (extractFiles_writes_files "/" threeEntries lastComponent
              (fun _ => ".")%string threeHandle eq_refl "*.txt" true emptyWorld)
    as [_ [_ Htree]].
  split; [rewrite Hflat | rewrite Htree]; reflexivity.
Defined.

Lemma NewRemoteZipFile_long_comment_witness :
  fst (@NewRemoteZipFile
         (hostWith "/" (honestServer ([] ++ longRecord ++ repeat x00 (Z.to_nat 65535))) [])
         "http://host/big.zip" emptyWorld)
  = Err (ErrWrap "failed to read central directory" ErrNoEOCD).
Proof.
  assert (Hcomment : 65514 < len (repeat x00 (Z.to_nat 65535)))
    by (vm_compute; reflexivity).
  assert (Hmax : len ([] ++ longRecord ++ repeat x00 (Z.to_nat 65535)) < 2 ^ 63)
    by (vm_compute; reflexivity).
  assert (Hzero : forallb (fun b => Byte.eqb b x00) (repeat x00 (Z.to_nat 65535)) = true)
    by (vm_compute; reflexivity).
  apply (NewRemoteZipFile_long_comment "/" [] "http://host/big.zip" emptyWorld
           [] longRecord (repeat x00 (Z.to_nat 65535)) eq_refl Hcomment Hmax).
  - cbn. intros H. repeat (destruct H as [H | H]; [discriminate |]). exact H.
  - intros H. rewrite forallb_forall in Hzero. specialize (Hzero _ H). discriminate.
Defined.
